(** * BlockchainVisualization: the chain visualisation component

    A shallow embedding of [components/BlockchainVisualization.tsx]: the
    effect that builds the Three.js scene for a list of blocks, its
    animation callback, its resize handler and its cleanup.

    JavaScript numbers are IEEE-754 binary64 values; they are modelled by
    the kernel's primitive floats, which implement the same format with
    round-to-nearest-even.  [Math.cos] and [Math.sin] are left
    implementation-approximated by ECMAScript, so the development takes
    them as section variables. *)

From Stdlib Require Import ZArith List Bool Lia String Ascii DecimalString Floats.
Import ListNotations.

Set Warnings "-inexact-float".
Local Open Scope Z_scope.

(** ** JavaScript values and completions *)

Module JS.

Definition number := float.

(** An integer read as a number (exact below 2^53, correctly rounded
    above). *)
Definition of_Z (n : Z) : number :=
  SF2Prim (binary_normalize prec emax n 0 false).

Definition of_nat (n : nat) : number := of_Z (Z.of_nat n).

(** The binary32 rounding of a number, as performed when a value is
    stored into a [Float32Array]; the result is read back as a
    binary64 number. *)
Definition fround (v : number) : number :=
  match Prim2SF v with
  | S754_finite s m e =>
      SF2Prim (binary_normalize 24 128 (if s then Z.neg m else Z.pos m) e s)
  | _ => v
  end.

Definition Float32Array (elements : list number) : list number :=
  map fround elements.

Inductive exn := TypeError | NotFoundError.

Inductive completion (A : Type) :=
| Normal (value : A)
| Throw (e : exn).
Arguments Normal {A} value.
Arguments Throw {A} e.

End JS.

Import JS.

(** ** The Three.js objects the component creates *)

Module THREE.

Record Vector3 := mkVector3 { x : number; y : number; z : number }.

Definition origin : Vector3 := mkVector3 0%float 0%float 0%float.

Record BoxGeometry :=
  mkBoxGeometry { width : number; height : number; depth : number }.

Record MeshPhongMaterial :=
  mkMeshPhongMaterial { color : Z; transparent : bool; opacity : number }.

Record LineBasicMaterial := mkLineBasicMaterial { lineColor : Z }.

(** A buffer geometry with its ['position'] attribute: the backing
    [Float32Array] and the item size. *)
Record BufferGeometry :=
  mkBufferGeometry { array : list number; itemSize : nat }.

Record Mesh := mkMesh {
  geometry : BoxGeometry;
  material : MeshPhongMaterial;
  meshPosition : Vector3 }.

Record Line := mkLine {
  lineGeometry : BufferGeometry;
  lineMaterial : LineBasicMaterial;
  linePosition : Vector3 }.

Inductive Object3D :=
| MeshObject (mesh : Mesh)
| LineObject (line : Line).

(** Every [Object3D] has a [position]; a new object sits at the origin. *)
Definition position (o : Object3D) : Vector3 :=
  match o with
  | MeshObject m => meshPosition m
  | LineObject l => linePosition l
  end.

Definition newMesh (g : BoxGeometry) (m : MeshPhongMaterial) : Mesh :=
  mkMesh g m origin.

Definition newLine (g : BufferGeometry) (m : LineBasicMaterial) : Line :=
  mkLine g m origin.

Definition setX (m : Mesh) (v : number) : Mesh :=
  mkMesh (geometry m) (material m)
         (mkVector3 v (y (meshPosition m)) (z (meshPosition m))).
Definition setY (m : Mesh) (v : number) : Mesh :=
  mkMesh (geometry m) (material m)
         (mkVector3 (x (meshPosition m)) v (z (meshPosition m))).
Definition setZ (m : Mesh) (v : number) : Mesh :=
  mkMesh (geometry m) (material m)
         (mkVector3 (x (meshPosition m)) (y (meshPosition m)) v).

Record Group := mkGroup {
  children : list Object3D;
  rotation : Vector3;
  groupPosition : Vector3 }.

Definition newGroup : Group := mkGroup [] origin origin.

Definition add (g : Group) (o : Object3D) : Group :=
  mkGroup (children g ++ [o]) (rotation g) (groupPosition g).

Definition isMesh (o : Object3D) : bool :=
  match o with MeshObject _ => true | LineObject _ => false end.

Definition isLine (o : Object3D) : bool :=
  match o with MeshObject _ => false | LineObject _ => true end.

(** The scene's own children: the two lights, and the block group, which
    the scene holds by reference (the group itself lives in the effect's
    closure). *)
Inductive SceneChild :=
| AmbientLight (lightColor : Z)
| DirectionalLight (lightColor : Z) (intensity : number) (at_ : Vector3)
| BlockGroupRef.

Record Scene := mkScene { sceneChildren : list SceneChild }.

(** The projection matrix is a function of the four frustum parameters;
    it is represented by the parameters it was last computed from. *)
Record Projection := mkProjection {
  projFov : number; projAspect : number;
  projNear : number; projFar : number }.

Record PerspectiveCamera := mkCamera {
  fov : number; aspect : number; near : number; far : number;
  cameraPosition : Vector3;
  target : Vector3;
  projectionMatrix : Projection }.

Definition newPerspectiveCamera (f a n r : number) : PerspectiveCamera :=
  mkCamera f a n r origin origin (mkProjection f a n r).

Definition updateProjectionMatrix (c : PerspectiveCamera)
  : PerspectiveCamera :=
  mkCamera (fov c) (aspect c) (near c) (far c) (cameraPosition c)
           (target c) (mkProjection (fov c) (aspect c) (near c) (far c)).

Definition setAspect (c : PerspectiveCamera) (a : number)
  : PerspectiveCamera :=
  mkCamera (fov c) a (near c) (far c) (cameraPosition c) (target c)
           (projectionMatrix c).

Definition setCameraPosition (c : PerspectiveCamera) (p : Vector3)
  : PerspectiveCamera :=
  mkCamera (fov c) (aspect c) (near c) (far c) p (target c)
           (projectionMatrix c).

Definition lookAt (c : PerspectiveCamera) (p : Vector3)
  : PerspectiveCamera :=
  mkCamera (fov c) (aspect c) (near c) (far c) (cameraPosition c) p
           (projectionMatrix c).

(** The renderer: its canvas ([domElement], a DOM node identifier), the
    size of its render target, and the number of draw calls issued. *)
Record WebGLRenderer := mkRenderer {
  domElement : nat;
  antialias : bool;
  alpha : bool;
  targetWidth : Z;
  targetHeight : Z;
  drawCalls : nat }.

Definition setSize (r : WebGLRenderer) (w h : Z) : WebGLRenderer :=
  mkRenderer (domElement r) (antialias r) (alpha r) w h (drawCalls r).

Definition render (r : WebGLRenderer) : WebGLRenderer :=
  mkRenderer (domElement r) (antialias r) (alpha r)
             (targetWidth r) (targetHeight r) (S (drawCalls r)).

End THREE.

(** ** Blocks *)

(** [interface Block].  The [index] of a block is an integer (the chain
    height reported by the node); [transactions] are opaque to the
    component and kept as their serialised text. *)
Record Block := mkBlock {
  index : Z;
  hash : string;
  previous_hash : string;
  transactions : list string }.

(** ** The host environment: the DOM and the browser's frame scheduler *)

Module DOM.

(** The [div] of the component: its layout size and its child nodes
    (canvases, by node identifier). *)
Record HTMLDivElement := mkDiv {
  clientWidth : Z;
  clientHeight : Z;
  childNodes : list nat }.

(** What the effect can observe and change outside its closure:
    [mountRef.current] (null until React attaches the [div], null again
    once it is detached), the ['resize'] listeners of [window] (each
    [handleResize] closure is identified by the canvas of its effect),
    and the pending animation-frame requests with the counters that
    allocate frame handles and DOM nodes. *)
Record Env := mkEnv {
  mountRef_current : option HTMLDivElement;
  resizeListeners : list nat;
  animationFrames : list nat;
  nextHandle : nat;
  nextNode : nat }.

(** Computations that read and write the environment and may throw; the
    environment reached when an exception is thrown is kept. *)
Definition M (A : Type) : Type := Env -> completion A * Env.

Definition ret {A} (a : A) : M A := fun env => (Normal a, env).

Definition throw {A} (e : exn) : M A := fun env => (Throw e, env).

Definition bind {A B} (m : M A) (k : A -> M B) : M B :=
  fun env =>
    match m env with
    | (Normal a, env') => k a env'
    | (Throw e, env') => (Throw e, env')
    end.

Definition lift {A} (c : completion A) : M A := fun env => (c, env).

Definition getMountRef : M (option HTMLDivElement) :=
  fun env => (Normal (mountRef_current env), env).

Definition setMountRef (d : option HTMLDivElement) (env : Env) : Env :=
  mkEnv d (resizeListeners env) (animationFrames env)
        (nextHandle env) (nextNode env).

(** [document.createElement('canvas')], done by the renderer's
    constructor: a fresh node. *)
Definition createCanvas : M nat :=
  fun env =>
    (Normal (nextNode env),
     mkEnv (mountRef_current env) (resizeListeners env)
           (animationFrames env) (nextHandle env) (S (nextNode env))).

(** [mountRef.current.appendChild(node)]. *)
Definition appendChild (node : nat) : M unit :=
  fun env =>
    match mountRef_current env with
    | None => (Throw TypeError, env)
    | Some d =>
        (Normal tt,
         setMountRef
           (Some (mkDiv (clientWidth d) (clientHeight d)
                        (childNodes d ++ [node]))) env)
    end.

Definition hasNode (node : nat) (l : list nat) : bool :=
  existsb (Nat.eqb node) l.

(** [mountRef.current.removeChild(node)]: a [NotFoundError] when the
    node is not a child of the element. *)
Definition removeChild (node : nat) : M unit :=
  fun env =>
    match mountRef_current env with
    | None => (Throw TypeError, env)
    | Some d =>
        if hasNode node (childNodes d)
        then (Normal tt,
              setMountRef
                (Some (mkDiv (clientWidth d) (clientHeight d)
                             (remove Nat.eq_dec node (childNodes d)))) env)
        else (Throw NotFoundError, env)
    end.

(** [window.addEventListener('resize', l)]: a listener already
    registered is not added again. *)
Definition addEventListener (l : nat) : M unit :=
  fun env =>
    (Normal tt,
     mkEnv (mountRef_current env)
           (if hasNode l (resizeListeners env) then resizeListeners env
            else resizeListeners env ++ [l])
           (animationFrames env) (nextHandle env) (nextNode env)).

(** [window.removeEventListener('resize', l)]: nothing happens when the
    listener is not registered. *)
Definition removeEventListener (l : nat) : M unit :=
  fun env =>
    (Normal tt,
     mkEnv (mountRef_current env)
           (remove Nat.eq_dec l (resizeListeners env))
           (animationFrames env) (nextHandle env) (nextNode env)).

(** [requestAnimationFrame(callback)]: a fresh handle, now pending. *)
Definition requestAnimationFrame : M nat :=
  fun env =>
    (Normal (nextHandle env),
     mkEnv (mountRef_current env) (resizeListeners env)
           (animationFrames env ++ [nextHandle env])
           (S (nextHandle env)) (nextNode env)).

(** [cancelAnimationFrame(handle)]: nothing happens for a handle that
    is not pending, or for [undefined]. *)
Definition cancelAnimationFrame (handle : option nat) : M unit :=
  fun env =>
    match handle with
    | None => (Normal tt, env)
    | Some h =>
        (Normal tt,
         mkEnv (mountRef_current env) (resizeListeners env)
               (remove Nat.eq_dec h (animationFrames env))
               (nextHandle env) (nextNode env))
    end.

(** The browser takes a pending request off the queue before it runs
    its callback. *)
Definition takeFrame (h : nat) : M unit :=
  cancelAnimationFrame (Some h).

End DOM.

Import DOM.

Declare Scope js_scope.
Delimit Scope js_scope with js.
Notation "x <- m ;; k" := (bind m (fun x => k))
  (at level 61, m at next level, right associativity) : js_scope.
Notation "m ;; k" := (bind m (fun _ => k))
  (at level 61, right associativity) : js_scope.

(** ** The component *)

Section BlockchainVisualization.

(** [Math.cos] and [Math.sin] of the engine that runs the component. *)
Variables Math_cos Math_sin : number -> number.

(** The variables of one run of the effect, shared by [animate],
    [handleResize] and the cleanup function.  [frameId] is declared
    without a value and assigned by [animate]. *)
Record Closure := mkClosure {
  scene : THREE.Scene;
  camera : THREE.PerspectiveCamera;
  renderer : THREE.WebGLRenderer;
  blockGroup : THREE.Group;
  frameId : option nat }.

(** [blocks.forEach(callback)] for a callback that updates a state and
    may throw: the callback receives each element with its array
    position. *)
Fixpoint forEach {S : Type} (callback : S -> Block -> nat -> completion S)
    (blocks : list Block) (from : nat) (s : S) : completion S :=
  match blocks with
  | [] => Normal s
  | block :: rest =>
      match callback s block from with
      | Normal s' => forEach callback rest (Datatypes.S from) s'
      | Throw e => Throw e
      end
  end.

(** The material of a block's mesh. *)
Definition blockMaterial (length : nat) (block : Block)
  : THREE.MeshPhongMaterial :=
  THREE.mkMeshPhongMaterial
    (if index block =? Z.of_nat length - 1 then 0x9333ea else 0x6b21a8)
    true
    0.8%float.

(** The mesh of the block at array position [index], placed on the
    spiral. *)
Definition blockMesh (length : nat) (block : Block) (index : nat)
  : THREE.Mesh :=
  let geometry := THREE.mkBoxGeometry 1%float 1%float 1%float in
  let material := blockMaterial length block in
  let mesh := THREE.newMesh geometry material in
  let angle := (of_nat index * 0.5)%float in
  let radius := 3%float in
  let mesh := THREE.setX mesh (Math_cos angle * radius)%float in
  let mesh := THREE.setY mesh (of_nat index * 0.5)%float in
  let mesh := THREE.setZ mesh (Math_sin angle * radius)%float in
  mesh.

(** The line drawn from [previousMesh] to [mesh]. *)
Definition connection (previousMesh : THREE.Object3D) (mesh : THREE.Mesh)
  : THREE.Line :=
  let lineMaterial := THREE.mkLineBasicMaterial 0x4c1d95 in
  let positions :=
    Float32Array
      [ THREE.x (THREE.position previousMesh);
        THREE.y (THREE.position previousMesh);
        THREE.z (THREE.position previousMesh);
        THREE.x (THREE.meshPosition mesh);
        THREE.y (THREE.meshPosition mesh);
        THREE.z (THREE.meshPosition mesh) ] in
  let lineGeometry := THREE.mkBufferGeometry positions 3 in
  THREE.newLine lineGeometry lineMaterial.

(** The body of [blocks.forEach((block, index) => ...)].  Reading
    [position] of a missing child ([undefined]) is a [TypeError]. *)
Definition addBlock (length : nat) (blockGroup : THREE.Group)
    (block : Block) (index : nat) : completion THREE.Group :=
  let mesh := blockMesh length block index in
  let blockGroup := THREE.add blockGroup (THREE.MeshObject mesh) in
  if (0 <? index)%nat then
    match nth_error (THREE.children blockGroup) (index - 1) with
    | Some previousMesh =>
        let line := connection previousMesh mesh in
        Normal (THREE.add blockGroup (THREE.LineObject line))
    | None => Throw TypeError
    end
  else Normal blockGroup.

(** "Create block meshes": the group built from [blocks]. *)
Definition buildBlockGroup (blocks : list Block)
  : completion THREE.Group :=
  forEach (addBlock (List.length blocks)) blocks 0%nat THREE.newGroup.

Definition setFrameId (c : Closure) (h : nat) : Closure :=
  mkClosure (scene c) (camera c) (renderer c) (blockGroup c) (Some h).

Definition setRenderer (c : Closure) (r : THREE.WebGLRenderer) : Closure :=
  mkClosure (scene c) (camera c) r (blockGroup c) (frameId c).

Definition setCamera (c : Closure) (k : THREE.PerspectiveCamera)
  : Closure :=
  mkClosure (scene c) k (renderer c) (blockGroup c) (frameId c).

(** [blockGroup.rotation.y += 0.005]. *)
Definition rotate (g : THREE.Group) : THREE.Group :=
  THREE.mkGroup (THREE.children g)
    (THREE.mkVector3 (THREE.x (THREE.rotation g))
                     (THREE.y (THREE.rotation g) + 0.005)%float
                     (THREE.z (THREE.rotation g)))
    (THREE.groupPosition g).

Definition setBlockGroup (c : Closure) (g : THREE.Group) : Closure :=
  mkClosure (scene c) (camera c) (renderer c) g (frameId c).

(** One render cycle. *)
Definition animate (c : Closure) : M Closure :=
  (h <- requestAnimationFrame ;;
   let c := setFrameId c h in
   let c := setBlockGroup c (rotate (blockGroup c)) in
   let c := setRenderer c (THREE.render (renderer c)) in
   ret c)%js.

Definition handleResize (c : Closure) : M Closure :=
  (current <- getMountRef ;;
   match current with
   | None => ret c
   | Some div =>
       let width := clientWidth div in
       let height := clientHeight div in
       let c := setRenderer c (THREE.setSize (renderer c) width height) in
       let c := setCamera c
                  (THREE.setAspect (camera c)
                     (of_Z width / of_Z height)%float) in
       let c := setCamera c (THREE.updateProjectionMatrix (camera c)) in
       ret c
   end)%js.

(** The function the effect returns. *)
Definition cleanup (c : Closure) : M unit :=
  (removeEventListener (THREE.domElement (renderer c)) ;;
   cancelAnimationFrame (frameId c) ;;
   current <- getMountRef ;;
   match current with
   | Some _ => removeChild (THREE.domElement (renderer c))
   | None => ret tt
   end)%js.

(** The effect of the component.  It returns the closure it set up
    (whose cleanup React keeps), or nothing when it returned early. *)
Definition effect (blocks : list Block) : M (option Closure) :=
  (current <- getMountRef ;;
   match current with
   | None => ret None
   | Some div =>
       let scene := THREE.mkScene [] in
       let camera :=
         THREE.newPerspectiveCamera 75%float
           (of_Z (clientWidth div) / of_Z (clientHeight div))%float
           0.1%float 1000%float in
       canvas <- createCanvas ;;
       let renderer := THREE.mkRenderer canvas true true 300 150 0 in
       let renderer :=
         THREE.setSize renderer (clientWidth div) (clientHeight div) in
       appendChild canvas ;;
       let ambientLight := THREE.AmbientLight 0x404040 in
       let directionalLight :=
         THREE.DirectionalLight 0xffffff 1%float
           (THREE.mkVector3 1%float 1%float 1%float) in
       let scene :=
         THREE.mkScene (THREE.sceneChildren scene ++ [ambientLight]) in
       let scene :=
         THREE.mkScene (THREE.sceneChildren scene ++ [directionalLight]) in
       blockGroup <- lift (buildBlockGroup blocks) ;;
       let scene :=
         THREE.mkScene (THREE.sceneChildren scene ++ [THREE.BlockGroupRef]) in
       let camera :=
         THREE.setCameraPosition camera
           (THREE.mkVector3 0%float 5%float 10%float) in
       let camera := THREE.lookAt camera (THREE.groupPosition blockGroup) in
       c <- animate (mkClosure scene camera renderer blockGroup None) ;;
       addEventListener canvas ;;
       ret (Some c)
   end)%js.

End BlockchainVisualization.

Arguments forEach {S} callback blocks from s.

(** ** Events of the host *)

(** The browser runs the animation callback of a closure when the frame
    the closure requested last is still pending; a cancelled request
    never runs. *)
Definition frame (c : Closure) : M Closure :=
  match frameId c with
  | Some h =>
      fun env =>
        if hasNode h (animationFrames env)
        then (takeFrame h ;; animate c)%js env
        else (Normal c, env)
  | None => ret c
  end.

(** [k] render cycles in a row. *)
Fixpoint cycles (k : nat) (c : Closure) : M Closure :=
  match k with
  | O => ret c
  | S k' => (c' <- animate c ;; cycles k' c')%js
  end.

(** React detaches the ref when the component unmounts. *)
Definition detach (env : Env) : Env := setMountRef None env.

(** Running a computation for its result, or for the environment it
    leaves. *)
Definition result {A} (m : M A) (env : Env) : completion A := fst (m env).
Definition after {A} (m : M A) (env : Env) : Env := snd (m env).

(** ** Observations on a built group *)

Fixpoint onlyMeshes (children : list THREE.Object3D) : list THREE.Mesh :=
  match children with
  | [] => []
  | THREE.MeshObject m :: rest => m :: onlyMeshes rest
  | THREE.LineObject _ :: rest => onlyMeshes rest
  end.

Fixpoint onlyLines (children : list THREE.Object3D) : list THREE.Line :=
  match children with
  | [] => []
  | THREE.MeshObject _ :: rest => onlyLines rest
  | THREE.LineObject l :: rest => l :: onlyLines rest
  end.

(** The solid primitives and the connector primitives of a group, in the
    order they were added. *)
Definition meshes (g : THREE.Group) : list THREE.Mesh :=
  onlyMeshes (THREE.children g).

Definition lines (g : THREE.Group) : list THREE.Line :=
  onlyLines (THREE.children g).

Definition highlightColor : Z := 0x9333ea.
Definition baseColor : Z := 0x6b21a8.

Definition isHighlighted (m : THREE.Mesh) : bool :=
  THREE.color (THREE.material m) =? highlightColor.

Definition highlightedCount (g : THREE.Group) : nat :=
  List.length (filter isHighlighted (meshes g)).

(** The red, green and blue channels of a colour. *)
Definition channels (c : Z) : Z * Z * Z :=
  (Z.land (Z.shiftr c 16) 255, Z.land (Z.shiftr c 8) 255, Z.land c 255).

(** A point as it is stored in a [Float32Array]. *)
Definition stored (p : THREE.Vector3) : THREE.Vector3 :=
  THREE.mkVector3 (fround (THREE.x p)) (fround (THREE.y p))
                  (fround (THREE.z p)).

(** The two endpoints of a line, read from its position attribute. *)
Definition startPoint (l : THREE.Line) : THREE.Vector3 :=
  let a := THREE.array (THREE.lineGeometry l) in
  THREE.mkVector3 (nth 0 a nan) (nth 1 a nan) (nth 2 a nan).

Definition endPoint (l : THREE.Line) : THREE.Vector3 :=
  let a := THREE.array (THREE.lineGeometry l) in
  THREE.mkVector3 (nth 3 a nan) (nth 4 a nan) (nth 5 a nan).

(** The [i]-th connector is the line added while block [i] is visited
    ([i >= 1]). *)
Definition connector (g : THREE.Group) (i : nat) : option THREE.Line :=
  match i with
  | O => None
  | S j => nth_error (lines g) j
  end.

(** The child slot that holds the mesh of block [i]. *)
Definition meshSlot (i : nat) : nat :=
  match i with
  | O => O
  | S _ => 2 * i - 1
  end.

(** ** The layout in closed form *)

Section Layout.

Variables Math_cos Math_sin : number -> number.

(** Where the mesh of array position [i] is put. *)
Definition spiralPosition (i : nat) : THREE.Vector3 :=
  THREE.mkVector3 (Math_cos (of_nat i * 0.5) * 3)%float
                  (of_nat i * 0.5)%float
                  (Math_sin (of_nat i * 0.5) * 3)%float.

(** The placement as the specification writes it:
    [(radius * cos angle, i * 0.5, radius * sin angle)] with
    [angle = i * 0.5] and [radius = 3]. *)
Definition specPosition (i : nat) : THREE.Vector3 :=
  let angle := (of_nat i * 0.5)%float in
  let radius := 3%float in
  THREE.mkVector3 (radius * Math_cos angle)%float
                  (of_nat i * 0.5)%float
                  (radius * Math_sin angle)%float.

(** The position of the child in slot [slot] of a built group: slot 0
    and the odd slots hold meshes, the other slots hold lines, which
    stay at the origin. *)
Definition childPosition (slot : nat) : THREE.Vector3 :=
  if (slot =? 0)%nat then spiralPosition 0
  else if Nat.odd slot then spiralPosition (Nat.div2 (S slot))
  else THREE.origin.

Definition segment (from to : THREE.Vector3) : THREE.Line :=
  THREE.newLine
    (THREE.mkBufferGeometry
       (Float32Array [ THREE.x from; THREE.y from; THREE.z from;
                       THREE.x to; THREE.y to; THREE.z to ]) 3)
    (THREE.mkLineBasicMaterial 0x4c1d95).

(** The children contributed by the blocks from array position [from]
    on. *)
Fixpoint layout (length : nat) (blocks : list Block) (from : nat)
  : list THREE.Object3D :=
  match blocks with
  | [] => []
  | block :: rest =>
      THREE.MeshObject (blockMesh Math_cos Math_sin length block from)
      :: (if (0 <? from)%nat
          then [THREE.LineObject
                  (segment (childPosition (from - 1))
                           (spiralPosition from))]
          else [])
      ++ layout length rest (S from)
  end.

(** The children of a group after the first [k] blocks were visited:
    there are [2k - 1] of them (none for [k = 0]) and each sits where
    [childPosition] says. *)
Definition visited (k : nat) (children : list THREE.Object3D) : Prop :=
  List.length children = (2 * k - 1)%nat /\
  forall slot o, nth_error children slot = Some o ->
                 THREE.position o = childPosition slot.

End Layout.

(** ** A reference engine

    Truncated Taylor series for [Math.cos] and [Math.sin], to run the
    component on concrete inputs. *)

Module Engine.

Definition cos (v : number) : number :=
  (let s := v * v in
   1 - s / 2 * (1 - s / 12 * (1 - s / 30 * (1 - s / 56 * (1 - s / 90
     * (1 - s / 132 * (1 - s / 182 * (1 - s / 240))))))))%float.

Definition sin (v : number) : number :=
  (let s := v * v in
   v * (1 - s / 6 * (1 - s / 20 * (1 - s / 42 * (1 - s / 72
     * (1 - s / 110 * (1 - s / 156 * (1 - s / 210))))))))%float.

End Engine.

(** Sample blocks and environments. *)

Definition block (i : Z) : Block := mkBlock i EmptyString EmptyString [].

Definition chain (n : nat) : list Block :=
  map (fun i => block (Z.of_nat i)) (seq 0 n).

Definition mounted (width height : Z) : Env :=
  mkEnv (Some (mkDiv width height [])) [] [] 1 0.

(** The rotation about the vertical axis after [k] render cycles that
    start from the value [v]. *)
Fixpoint accumulate (k : nat) (v : number) : number :=
  match k with
  | O => v
  | S k' => accumulate k' (v + 0.005)%float
  end.

(** The number of blocks whose [index] field is the length of the
    sequence minus one. *)
Definition tipCount (blocks : list Block) : nat :=
  List.length
    (filter (fun b => index b =? Z.of_nat (List.length blocks) - 1) blocks).

(** [k] animation frames in a row, each run by the browser. *)
Fixpoint frames (k : nat) (c : Closure) : M Closure :=
  match k with
  | O => ret c
  | S k' => (c' <- frame c ;; frames k' c')%js
  end.

(** The identifiers handed out so far are below the counter that
    allocates the next one. *)
Definition allBelow (bound : nat) (l : list nat) : Prop :=
  forall n, In n l -> (n < bound)%nat.

(** How [k] render cycles change a closure, the frame handle apart:
    [k] more draw calls, [k] more additions to the rotation about the
    vertical axis, and nothing else. *)
Definition advanced (k : nat) (c c' : Closure) : Prop :=
  scene c' = scene c /\
  camera c' = camera c /\
  renderer c'
  = THREE.mkRenderer (THREE.domElement (renderer c))
      (THREE.antialias (renderer c)) (THREE.alpha (renderer c))
      (THREE.targetWidth (renderer c)) (THREE.targetHeight (renderer c))
      (k + THREE.drawCalls (renderer c)) /\
  blockGroup c'
  = THREE.mkGroup (THREE.children (blockGroup c))
      (THREE.mkVector3
         (THREE.x (THREE.rotation (blockGroup c)))
         (accumulate k (THREE.y (THREE.rotation (blockGroup c))))
         (THREE.z (THREE.rotation (blockGroup c))))
      (THREE.groupPosition (blockGroup c)).

(** * The dashboard page

    [pages/index.tsx]: the address of the API, the three handlers that
    talk to it and the effect that polls it.  A handler is modelled by
    what one invocation of it does, in order, given what the network
    answers; between two of its [await]s other handlers may run. *)

Module Home.

Local Open Scope string_scope.

(** ** Strings *)

(** The rest of [s] after the prefix [p], when [s] starts with [p]. *)
Fixpoint stripPrefix (p s : string) : option string :=
  match p with
  | EmptyString => Some s
  | String a p' =>
      match s with
      | EmptyString => None
      | String b s' => if Ascii.eqb a b then stripPrefix p' s' else None
      end
  end.

(** [s.replace(searchValue, replaceValue)] for two strings, the second
    without [$]: the first occurrence of [searchValue] is replaced. *)
Fixpoint replace (searchValue replaceValue s : string) : string :=
  match stripPrefix searchValue s with
  | Some rest => replaceValue ++ rest
  | None =>
      match s with
      | EmptyString => EmptyString
      | String ch rest => String ch (replace searchValue replaceValue rest)
      end
  end.

(** [window] is undefined on the server; in the browser it gives
    [window.location.hostname]. *)
Definition API_BASE_URL (window : option string) : string :=
  match window with
  | Some hostname => "https://" ++ replace "3000" "8080" hostname
  | None => "http://localhost:8080"
  end.

(** A status code written in a template literal. *)
Definition decimal (n : nat) : string :=
  NilEmpty.string_of_uint (Nat.to_uint n).

(** ** Values *)

(** What [response.json()] resolves to. *)
#[local] Set Warnings "-register-all".
Inductive json :=
| JNull
| JBool (b : bool)
| JNumber (n : number)
| JString (s : string)
| JArray (items : list json)
| JObject (fields : list (string * json)).

(** What is thrown or rejected with: an instance of [Error] with its
    message, or any other value, by its text. *)
Inductive thrown :=
| ErrorInstance (message : string)
| Other (text : string).

Fixpoint lookup (key : string) (fields : list (string * json))
  : option json :=
  match fields with
  | [] => None
  | (k, v) :: rest => if String.eqb k key then Some v else lookup key rest
  end.

(** [ToBoolean], as [||] applies it; [None] is [undefined]. *)
Definition truthy (v : option json) : bool :=
  match v with
  | None => false
  | Some JNull => false
  | Some (JBool b) => b
  | Some (JNumber n) => negb (PrimFloat.eqb n 0%float) && PrimFloat.eqb n n
  | Some (JString s) => negb (String.eqb s "")
  | Some (JArray _) => true
  | Some (JObject _) => true
  end.

(** [v || fallback]. *)
Definition orElse (v : option json) (fallback : json) : json :=
  match v with
  | Some w => if truthy v then w else fallback
  | None => fallback
  end.

(** ** The network *)

Record Response := mkResponse {
  status : nat;
  (** [response.json()]: the parsed body, or the rejection. *)
  body : json + thrown }.

Definition ok (r : Response) : bool :=
  (200 <=? status r)%nat && (status r <=? 299)%nat.

(** What a call of [fetch] settles to. *)
Inductive fetched :=
| Rejected (reason : thrown)
| Resolved (response : Response).

Record RequestInit := mkRequestInit {
  method : string;
  headers : list (string * string);
  (** The value handed to [JSON.stringify]. *)
  payload : json }.

(** ** What a handler does *)

Inductive action :=
| fetch_ (url : string) (init : option RequestInit)
| setBlocks (chain : list json)
| setLoading (value : bool)
| setMining (value : bool)
| toast (title : string) (description : json) (variant : option string)
| console_error (label : string) (message : string) (context : string)
| reset.

Inductive completion (A : Type) :=
| Returned (value : A)
| Raised (error : thrown).
Arguments Returned {A} value.
Arguments Raised {A} error.

(** The actions of a piece of code, in order, and how it completes. *)
Definition P (A : Type) : Type := list action * completion A.

Definition ret {A} (a : A) : P A := ([], Returned a).

Definition raise {A} (e : thrown) : P A := ([], Raised e).

Definition emit (a : action) : P unit := ([a], Returned tt).

Definition bind {A B} (m : P A) (k : A -> P B) : P B :=
  match m with
  | (done, Returned a) => let (more, r) := k a in ((done ++ more)%list, r)
  | (done, Raised e) => (done, Raised e)
  end.

(** [try { m } catch (error) { handler }]. *)
Definition try_catch {A} (m : P A) (handler : thrown -> P A) : P A :=
  match m with
  | (done, Returned a) => (done, Returned a)
  | (done, Raised e) =>
      let (more, r) := handler e in ((done ++ more)%list, r)
  end.

(** [try { m } finally { cleanup }]. *)
Definition try_finally {A} (m : P A) (cleanup : P unit) : P A :=
  let (done, r) := m in
  match cleanup with
  | (more, Returned _) => ((done ++ more)%list, r)
  | (more, Raised e) => ((done ++ more)%list, Raised e)
  end.

Declare Scope page_scope.
Delimit Scope page_scope with page.
Notation "x <- m ;; k" := (bind m (fun x => k))
  (at level 61, m at next level, right associativity) : page_scope.
Notation "m ;; k" := (bind m (fun _ => k))
  (at level 61, right associativity) : page_scope.

Section Handlers.

Local Open Scope page_scope.

(** The host name of the page, the message of the [TypeError] the
    engine raises for reading a property of [null], and the engine's
    conversion of a number to a string. *)
Variable window : option string.
Variable nullProperty : string -> string.
Variable NumberToString : number -> string.

(** [String(v)]. *)
Fixpoint ToString (v : json) : string :=
  match v with
  | JNull => "null"
  | JBool true => "true"
  | JBool false => "false"
  | JNumber n => NumberToString n
  | JString s => s
  | JArray items =>
      (fix join (l : list json) : string :=
         match l with
         | [] => ""
         | x :: rest =>
             (match x with JNull => "" | _ => ToString x end)
             ++ match rest with [] => "" | _ :: _ => "," ++ join rest end
         end) items
  | JObject _ => "[object Object]"
  end.

(** [data?.key], for a key that no built-in prototype defines. *)
Definition optional (data : json) (key : string) : option json :=
  match data with
  | JObject fields => lookup key fields
  | _ => None
  end.

(** [data.key], for such a key: a [TypeError] on [null]. *)
Definition member (data : json) (key : string) : P (option json) :=
  match data with
  | JNull => raise (ErrorInstance (nullProperty key))
  | _ => ret (optional data key)
  end.

Definition fetch (url : string) (init : option RequestInit)
    (answer : fetched) : P Response :=
  emit (fetch_ url init) ;;
  match answer with
  | Rejected reason => raise reason
  | Resolved response => ret response
  end.

(** [await response.json()]. *)
Definition json_ (response : Response) : P json :=
  match body response with
  | inl data => ret data
  | inr reason => raise reason
  end.

(** [logError]; the stack trace it also logs is the engine's. *)
Definition logError (error : thrown) (context : string) : P unit :=
  emit (console_error ("Error in " ++ context ++ ":")
          (match error with
           | ErrorInstance message => message
           | Other text => text
           end)
          context).

(** The toast [fetchBlocks] shows when it fails. *)
Definition fetchFailureToast : action :=
  toast "Error"
    (JString "Failed to fetch blockchain data. Please try again later.")
    (Some "destructive").

Definition fetchBlocks (chain : fetched) : P unit :=
  try_finally
    (try_catch
       (response <- fetch (API_BASE_URL window ++ "/chain") None chain ;;
        (if negb (ok response)
         then raise (ErrorInstance
                       ("HTTP error! status: " ++ decimal (status response)))
         else ret tt) ;;
        data <- json_ response ;;
        match optional data "chain" with
        | Some (JArray items) => emit (setBlocks items)
        | _ => raise (ErrorInstance "Invalid response format")
        end)
       (fun error =>
          logError error "fetchBlocks" ;;
          emit fetchFailureToast))
    (emit (setLoading false)).

(** The toast [handleMining] shows when it fails. *)
Definition miningFailureToast : action :=
  toast "Error" (JString "Mining failed. Please try again.")
    (Some "destructive").

Definition handleMining (mine chain : fetched) : P unit :=
  emit (setMining true) ;;
   try_finally
     (try_catch
        (response <- fetch (API_BASE_URL window ++ "/mine") None mine ;;
         (if negb (ok response)
          then raise (ErrorInstance
                        ("Mining failed with status: "
                         ++ decimal (status response)))
          else ret tt) ;;
         data <- json_ response ;;
         message <- member data "message" ;;
         emit (toast "Success"
                 (orElse message (JString "New block mined successfully!"))
                 None) ;;
         fetchBlocks chain)
        (fun error =>
           logError error "handleMining" ;;
           emit miningFailureToast))
     (emit (setMining false)).

(** The request [onSubmitTransaction] sends. *)
Definition transactionRequest (recipient : string) (amount : number)
  : RequestInit :=
  mkRequestInit "POST" [("Content-Type", "application/json")]
    (JObject [("recipient", JString recipient); ("amount", JNumber amount)]).

Definition onSubmitTransaction (recipient : string) (amount : number)
    (post chain : fetched) : P unit :=
  try_catch
    (response <- fetch (API_BASE_URL window ++ "/transaction/new")
                   (Some (transactionRequest recipient amount)) post ;;
     (if negb (ok response)
      then
        errorData <- try_catch (json_ response) (fun _ => ret (JObject [])) ;;
        error <- member errorData "error" ;;
        raise (ErrorInstance
                 (ToString
                    (orElse error
                       (JString ("Transaction failed with status: "
                                 ++ decimal (status response))))))
      else ret tt) ;;
     responseData <- json_ response ;;
     message <- member responseData "message" ;;
     emit (toast "Success"
             (orElse message (JString "Transaction created successfully!"))
             None) ;;
     emit reset ;;
     fetchBlocks chain)
    (fun error =>
       logError error "onSubmitTransaction" ;;
       emit (toast "Error"
               (JString (match error with
                         | ErrorInstance message => message
                         | Other _ => "Failed to create transaction"
                         end))
               (Some "destructive"))).

End Handlers.

(** ** The polling effect *)

(** The variables of the effect ([isActive], [intervalId]), the
    intervals registered with the host and the counter that allocates
    their handles, whether the first [fetchBlocks] is still awaited, and
    how often [fetchBlocks] has been called. *)
Record Polling := mkPolling {
  isActive : bool;
  intervalId : option nat;
  intervals : list nat;
  nextInterval : nat;
  awaiting : bool;
  calls : nat }.

(** The effect runs: [initializeBlockchain] finds [isActive] set and
    calls [fetchBlocks], which it awaits. *)
Definition start (registered : list nat) (next : nat) : Polling :=
  mkPolling true None registered next true 1.

Inductive event :=
| settled            (* the awaited [fetchBlocks] completes *)
| tick (id : nat)    (* the host fires the interval [id]; the callback
                        of the effect belongs to the interval it set *)
| unmount.           (* React runs the function the effect returned *)

Definition step (s : Polling) (e : event) : Polling :=
  match e with
  | settled =>
      if awaiting s
      then mkPolling (isActive s) (Some (nextInterval s))
             (intervals s ++ [nextInterval s])%list
             (S (nextInterval s)) false (calls s)
      else s
  | tick id =>
      match intervalId s with
      | Some own =>
          if (id =? own)%nat && existsb (Nat.eqb id) (intervals s)
             && isActive s
          then mkPolling (isActive s) (intervalId s) (intervals s)
                 (nextInterval s) (awaiting s) (S (calls s))
          else s
      | None => s
      end
  | unmount =>
      mkPolling false (intervalId s)
        (match intervalId s with
         | Some id =>
             if (id =? 0)%nat then intervals s
             else List.remove Nat.eq_dec id (intervals s)
         | None => intervals s
         end)
        (nextInterval s) (awaiting s) (calls s)
  end.

Definition run (s : Polling) (es : list event) : Polling :=
  fold_left step es s.

(** How often the host fires the interval [id] in a sequence of
    events. *)
Definition ticks (id : nat) (es : list event) : nat :=
  List.length
    (filter (fun e => match e with
                      | tick fired => (fired =? id)%nat
                      | _ => false
                      end) es).

End Home.

(** * Properties *)

(** ** Numbers *)

Lemma SFmul_comm (p e : Z) (a b : spec_float) :
  SFmul p e a b = SFmul p e b a.
Proof.
  destruct a as [sa|sa| |sa ma ea], b as [sb|sb| |sb mb eb]; simpl;
    try reflexivity; try (rewrite (xorb_comm sa sb); reflexivity).
  rewrite (xorb_comm sa sb), (Pos.mul_comm ma mb), (Z.add_comm ea eb).
  reflexivity.
Qed.

(** Multiplication of numbers commutes. *)
Lemma number_mul_comm (a b : number) : (a * b = b * a)%float.
Proof.
  rewrite <- (SF2Prim_Prim2SF (a * b)), <- (SF2Prim_Prim2SF (b * a)).
  rewrite !mul_spec. unfold SF64mul. now rewrite SFmul_comm.
Qed.

Lemma stored_origin : stored THREE.origin = THREE.origin.
Proof. reflexivity. Qed.

(** ** Lists of node identifiers *)

Lemma hasNode_In (n : nat) (l : list nat) : hasNode n l = true <-> In n l.
Proof.
  unfold hasNode. rewrite existsb_exists. split.
  - intros [m [Hin Heq]]. apply Nat.eqb_eq in Heq. now subst.
  - intros Hin. exists n. split; [assumption | apply Nat.eqb_refl].
Qed.

Lemma hasNode_remove (n : nat) (l : list nat) :
  hasNode n (remove Nat.eq_dec n l) = false.
Proof.
  destruct (hasNode n (remove Nat.eq_dec n l)) eqn:E; [|reflexivity].
  apply hasNode_In in E. now apply remove_In in E.
Qed.

Lemma hasNode_app (n : nat) (l1 l2 : list nat) :
  hasNode n (l1 ++ l2) = hasNode n l1 || hasNode n l2.
Proof. unfold hasNode. apply existsb_app. Qed.

Section Properties.

Variables Math_cos Math_sin : number -> number.

Local Abbreviation build := (buildBlockGroup Math_cos Math_sin).
Local Abbreviation meshOf := (blockMesh Math_cos Math_sin).
Local Abbreviation place := (spiralPosition Math_cos Math_sin).
Local Abbreviation slotPosition := (childPosition Math_cos Math_sin).
Local Abbreviation expected := (layout Math_cos Math_sin).
Local Abbreviation visited := (visited Math_cos Math_sin).

(** ** The geometry builder *)

Lemma blockMesh_position (n : nat) (b : Block) (i : nat) :
  THREE.meshPosition (meshOf n b i) = place i.
Proof. reflexivity. Qed.

Lemma blockMesh_material (n : nat) (b : Block) (i : nat) :
  THREE.material (meshOf n b i) = blockMaterial n b.
Proof. reflexivity. Qed.

Lemma connection_segment (o : THREE.Object3D) (m : THREE.Mesh) :
  connection o m = segment (THREE.position o) (THREE.meshPosition m).
Proof. reflexivity. Qed.

Lemma visited_nil : visited 0 [].
Proof.
  split; [reflexivity|]. intros slot o H. now destruct slot.
Qed.

Lemma childPosition_odd (k : nat) :
  (0 < k)%nat -> slotPosition (2 * k - 1) = place k.
Proof.
  intros Hk. unfold childPosition.
  replace (2 * k - 1)%nat with (S (2 * (k - 1))) by lia.
  cbn [Nat.eqb]. rewrite Nat.odd_succ, Nat.even_mul. cbn [Nat.even orb].
  replace (S (S (2 * (k - 1)))) with (2 * k)%nat by lia.
  now rewrite Nat.div2_double.
Qed.

Lemma childPosition_even (k : nat) :
  (0 < k)%nat -> slotPosition (2 * k) = THREE.origin.
Proof.
  intros Hk. unfold childPosition.
  destruct (Nat.eqb_spec (2 * k) 0) as [E|_]; [lia|].
  rewrite <- Nat.negb_even, Nat.even_mul. reflexivity.
Qed.

Lemma visited_first (n : nat) (b : Block) :
  visited 1 [THREE.MeshObject (meshOf n b 0)].
Proof.
  split; [reflexivity|].
  intros [|[|slot]] o H; simpl in H; try discriminate.
  injection H as <-. reflexivity.
Qed.

Lemma visited_next (n k : nat) (b : Block) (ch : list THREE.Object3D) :
  (0 < k)%nat -> visited k ch ->
  visited (S k)
    ((ch ++ [THREE.MeshObject (meshOf n b k)])
        ++ [THREE.LineObject (segment (slotPosition (k - 1)) (place k))]).
Proof.
  intros Hk [Hlen Hpos]. split.
  - rewrite !length_app, Hlen. simpl. lia.
  - intros slot o H.
    destruct (Nat.lt_ge_cases slot (List.length ch)) as [Hlt|Hge].
    + rewrite <- app_assoc, nth_error_app1 in H by assumption.
      now apply Hpos.
    + rewrite <- app_assoc, nth_error_app2 in H by assumption.
      remember (slot - List.length ch)%nat as d eqn:Hd.
      destruct d as [|[|d]]; simpl in H.
      * injection H as <-. simpl.
        replace slot with (2 * k - 1)%nat by lia.
        now rewrite childPosition_odd.
      * injection H as <-. simpl.
        replace slot with (2 * k)%nat by lia.
        now rewrite childPosition_even.
      * now destruct d.
Qed.

(** The loop appends the closed-form layout to the children it
    starts from, and never throws. *)
Lemma forEach_addBlock (n : nat) (rest : list Block) :
  forall (k : nat) (g : THREE.Group),
    visited k (THREE.children g) ->
    forEach (addBlock Math_cos Math_sin n) rest k g
    = Normal (THREE.mkGroup (THREE.children g ++ expected n rest k)
                            (THREE.rotation g) (THREE.groupPosition g)).
Proof.
  induction rest as [|b rest IH]; intros k g Hv.
  - simpl. rewrite app_nil_r. now destruct g.
  - cbn [forEach layout]. unfold addBlock.
    destruct (Nat.ltb_spec 0 k) as [Hk|Hk].
    + destruct Hv as [Hlen Hpos].
      assert (Hprev : (k - 1 < List.length (THREE.children g))%nat) by lia.
      cbn [THREE.add THREE.children].
      rewrite nth_error_app1 by assumption.
      destruct (nth_error (THREE.children g) (k - 1)) as [o|] eqn:Ho;
        [|apply nth_error_None in Ho; lia].
      rewrite connection_segment, (Hpos _ _ Ho), blockMesh_position.
      rewrite IH.
      * cbn [THREE.children THREE.rotation THREE.groupPosition THREE.add].
        now rewrite <- !app_assoc.
      * cbn [THREE.children THREE.add THREE.rotation THREE.groupPosition].
        apply visited_next; [assumption | now split].
    + assert (k = 0)%nat as -> by lia.
      destruct Hv as [Hlen _].
      destruct (THREE.children g) as [|? ?] eqn:Hch; [|discriminate].
      rewrite IH.
      * cbn [THREE.children THREE.rotation THREE.groupPosition THREE.add].
        rewrite Hch. reflexivity.
      * cbn [THREE.children THREE.add]. rewrite Hch. apply visited_first.
Qed.

(** The builder always returns, and what it returns is the layout. *)
Lemma buildBlockGroup_layout (blocks : list Block) :
  build blocks
  = Normal (THREE.mkGroup (expected (List.length blocks) blocks 0)
                          THREE.origin THREE.origin).
Proof.
  unfold buildBlockGroup. rewrite forEach_addBlock by apply visited_nil.
  reflexivity.
Qed.

(** *** The layout, primitive by primitive *)

Lemma layout_length (n : nat) (bs : list Block) :
  forall k, List.length (expected n bs k)
            = (2 * List.length bs - (if (0 <? k)%nat then 0 else 1))%nat.
Proof.
  induction bs as [|b bs IH]; intros k.
  - simpl. now destruct (0 <? k)%nat.
  - cbn [layout List.length]. rewrite length_app, IH.
    destruct (Nat.ltb_spec 0 k); cbn [List.length Nat.ltb Nat.leb]; lia.
Qed.

Lemma layout_meshes_length (n : nat) (bs : list Block) :
  forall k, List.length (onlyMeshes (expected n bs k)) = List.length bs.
Proof.
  induction bs as [|b bs IH]; intros k; [reflexivity|].
  cbn [layout onlyMeshes List.length].
  destruct (0 <? k)%nat; cbn [app onlyMeshes]; now rewrite IH.
Qed.

Lemma layout_meshes (n : nat) (bs : list Block) :
  forall k i,
    nth_error (onlyMeshes (expected n bs k)) i
    = option_map (fun b => meshOf n b (k + i)) (nth_error bs i).
Proof.
  induction bs as [|b bs IH]; intros k i.
  - now destruct i.
  - cbn [layout onlyMeshes].
    assert (E : onlyMeshes
                  ((if (0 <? k)%nat
                    then [THREE.LineObject
                            (segment (slotPosition (k - 1)) (place k))]
                    else []) ++ expected n bs (S k))
                = onlyMeshes (expected n bs (S k)))
      by now destruct (0 <? k)%nat.
    rewrite E. destruct i as [|i]; cbn [nth_error option_map].
    + now rewrite Nat.add_0_r.
    + rewrite IH. now replace (S k + i)%nat with (k + S i)%nat by lia.
Qed.

Lemma layout_lines_length (n : nat) (bs : list Block) :
  forall k, List.length (onlyLines (expected n bs k))
            = (List.length bs - (if (0 <? k)%nat then 0 else 1))%nat.
Proof.
  induction bs as [|b bs IH]; intros k.
  - now destruct (0 <? k)%nat.
  - cbn [layout onlyLines List.length].
    destruct (Nat.ltb_spec 0 k); cbn [app onlyLines List.length];
      rewrite IH; cbn [Nat.ltb Nat.leb]; lia.
Qed.

(** From the second block on, every block contributes one line. *)
Lemma layout_lines (n : nat) (bs : list Block) :
  forall k j,
    (0 < k)%nat -> (j < List.length bs)%nat ->
    nth_error (onlyLines (expected n bs k)) j
    = Some (segment (slotPosition (k + j - 1)) (place (k + j))).
Proof.
  induction bs as [|b bs IH]; intros k j Hk Hj; [simpl in Hj; lia|].
  cbn [layout onlyLines]. destruct (Nat.ltb_spec 0 k) as [_|?]; [|lia].
  cbn [app onlyLines]. destruct j as [|j]; cbn [nth_error].
  - now rewrite Nat.add_0_r.
  - simpl in Hj. rewrite IH by lia.
    now replace (S k + j)%nat with (k + S j)%nat by lia.
Qed.

(** From the second block on, the children come in pairs: the mesh of a
    block, then its line. *)
Lemma layout_pairs (n : nat) (bs : list Block) :
  forall k j b,
    (0 < k)%nat -> nth_error bs j = Some b ->
    nth_error (expected n bs k) (2 * j)
    = Some (THREE.MeshObject (meshOf n b (k + j))) /\
    nth_error (expected n bs k) (2 * j + 1)
    = Some (THREE.LineObject
              (segment (slotPosition (k + j - 1)) (place (k + j)))).
Proof.
  induction bs as [|b0 bs IH]; intros k j b Hk Hb; [now destruct j|].
  cbn [layout]. destruct (Nat.ltb_spec 0 k) as [_|?]; [|lia].
  destruct j as [|j].
  - injection Hb as ->. rewrite Nat.add_0_r. now split.
  - cbn [nth_error] in Hb. destruct (IH (S k) j b ltac:(lia) Hb) as [Hm Hl].
    replace (2 * S j)%nat with (S (S (2 * j))) by lia.
    replace (S (S (2 * j)) + 1)%nat with (S (S (2 * j + 1))) by lia.
    cbn [app nth_error].
    replace (k + S j)%nat with (S k + j)%nat by lia.
    now split.
Qed.

Lemma build_meshes (blocks : list Block) (i : nat) :
  nth_error (onlyMeshes (expected (List.length blocks) blocks 0)) i
  = option_map (fun b => meshOf (List.length blocks) b i)
               (nth_error blocks i).
Proof. apply layout_meshes. Qed.

Lemma build_lines (blocks : list Block) (i : nat) :
  (1 <= i < List.length blocks)%nat ->
  nth_error (onlyLines (expected (List.length blocks) blocks 0)) (i - 1)
  = Some (segment (slotPosition (i - 1)) (place i)).
Proof.
  intros Hi. destruct blocks as [|b rest]; [simpl in Hi; lia|].
  cbn [layout Nat.ltb Nat.leb app onlyLines]. simpl in Hi.
  rewrite layout_lines by lia.
  now replace (1 + (i - 1))%nat with i by lia.
Qed.

(** Both endpoints of every connector: the line added for block [i]
    starts at the stored position of the child in slot [i - 1] and ends
    at the stored position of the mesh of block [i]. *)
Lemma connector_endpoints (blocks : list Block) (i : nat) :
  (1 <= i < List.length blocks)%nat ->
  exists g l,
    build blocks = Normal g /\
    connector g i = Some l /\
    startPoint l = stored (slotPosition (i - 1)) /\
    endPoint l = stored (place i).
Proof.
  intros Hi. rewrite buildBlockGroup_layout.
  eexists. exists (segment (slotPosition (i - 1)) (place i)).
  split; [reflexivity|]. split; [|now split].
  destruct i as [|j]; [lia|]. unfold connector, lines. cbn [THREE.children].
  rewrite <- (build_lines blocks (S j) Hi).
  now replace (S j - 1)%nat with j by lia.
Qed.

(** Which point a connector starts from: the previous mesh for the
    first two connectors; after that the child in slot [i - 1] is the
    mesh of block [i / 2] when [i] is even and a line, at the origin,
    when [i] is odd. *)
Lemma connector_start_cases (blocks : list Block) (i : nat) :
  (1 <= i < List.length blocks)%nat ->
  exists g l,
    build blocks = Normal g /\
    connector g i = Some l /\
    startPoint l
    = stored (if (i <=? 2)%nat then place (i - 1)
              else if Nat.even i then place (Nat.div2 i)
              else THREE.origin).
Proof.
  intros Hi.
  destruct (connector_endpoints blocks i Hi) as (g & l & Hg & Hl & Hs & _).
  exists g, l. split; [assumption|]. split; [assumption|].
  rewrite Hs. f_equal.
  destruct i as [|[|[|i]]]; [lia|reflexivity|reflexivity|].
  cbn [Nat.leb]. replace (S (S (S i)) - 1)%nat with (S (S i)) by lia.
  unfold childPosition. cbn [Nat.eqb].
  rewrite <- (Nat.negb_even (S (S i))), (Nat.even_succ (S (S i))).
  rewrite <- (Nat.negb_even (S (S i))).
  now destruct (Nat.even (S (S i))).
Qed.

Example specPosition_one :
  specPosition Math_cos Math_sin 1
  = THREE.mkVector3 (3 * Math_cos 0.5)%float 0.5%float
                    (3 * Math_sin 0.5)%float.
Proof. reflexivity. Qed.

Example build_one (b : Block) :
  build [b]
  = Normal (THREE.mkGroup [THREE.MeshObject (meshOf 1 b 0)]
                          THREE.origin THREE.origin).
Proof. reflexivity. Qed.

(** ** The claims about the geometry builder *)

(** C1: for every sequence of N blocks the builder returns a group with
    exactly N meshes and exactly max(0, N-1) lines and nothing else; for
    the empty sequence it returns the empty group, without an error. *)
Theorem primitive_counts (blocks : list Block) :
  exists g,
    build blocks = Normal g /\
    List.length (meshes g) = List.length blocks /\
    Z.of_nat (List.length (lines g))
    = Z.max 0 (Z.of_nat (List.length blocks) - 1) /\
    List.length (THREE.children g)
    = (List.length (meshes g) + List.length (lines g))%nat /\
    build [] = Normal THREE.newGroup.
Proof.
  rewrite buildBlockGroup_layout. eexists. split; [reflexivity|].
  unfold meshes, lines. cbn [THREE.children].
  rewrite layout_meshes_length, layout_lines_length, layout_length.
  cbn [Nat.ltb Nat.leb]. repeat split; lia.
Qed.

(** C10: the children of the built group are laid down interleaved: the
    group has 2N - 1 children (none for N = 0), the mesh of block 0 is
    child 0, and for every i >= 1 the mesh of block i is child 2i - 1 and
    connector i is child 2i. *)
Theorem interleaved_children (blocks : list Block) :
  exists g,
    build blocks = Normal g /\
    List.length (THREE.children g) = (2 * List.length blocks - 1)%nat /\
    (forall i b,
        nth_error blocks i = Some b ->
        nth_error (THREE.children g) (meshSlot i)
        = Some (THREE.MeshObject (meshOf (List.length blocks) b i))) /\
    (forall i,
        (1 <= i < List.length blocks)%nat ->
        exists l, connector g i = Some l /\
                  nth_error (THREE.children g) (2 * i)
                  = Some (THREE.LineObject l)).
Proof.
  rewrite buildBlockGroup_layout. eexists. split; [reflexivity|].
  cbn [THREE.children]. split; [|split].
  - rewrite layout_length. cbn [Nat.ltb Nat.leb]. lia.
  - intros i b Hb. destruct blocks as [|b0 rest]; [now destruct i|].
    destruct i as [|j].
    + injection Hb as ->. reflexivity.
    + cbn [nth_error] in Hb. cbn [layout Nat.ltb Nat.leb app meshSlot].
      replace (2 * S j - 1)%nat with (S (2 * j)) by lia. cbn [nth_error].
      now destruct (layout_pairs (List.length (b0 :: rest)) rest 1 j b
                      ltac:(lia) Hb) as [-> _].
  - intros i Hi.
    exists (segment (slotPosition (i - 1)) (place i)). split.
    + destruct i as [|j]; [lia|]. unfold connector, lines.
      cbn [THREE.children]. rewrite <- (build_lines blocks (S j) Hi).
      now replace (S j - 1)%nat with j by lia.
    + destruct blocks as [|b0 rest]; [simpl in Hi; lia|].
      destruct i as [|j]; [lia|]. simpl in Hi.
      destruct (nth_error rest j) as [b|] eqn:Hb;
        [|apply nth_error_None in Hb; lia].
      cbn [layout Nat.ltb Nat.leb app].
      replace (2 * S j)%nat with (S (2 * j + 1)) by lia. cbn [nth_error].
      destruct (layout_pairs (List.length (b0 :: rest)) rest 1 j b
                  ltac:(lia) Hb) as [_ ->].
      now replace (S j - 1)%nat with (1 + j - 1)%nat by lia.
Qed.

(** C3: the mesh of the block at array position i is placed at
    (3 * cos(i * 0.5), i * 0.5, 3 * sin(i * 0.5)). *)
Theorem mesh_position (blocks : list Block) (i : nat) :
  (i < List.length blocks)%nat ->
  exists g m,
    build blocks = Normal g /\
    nth_error (meshes g) i = Some m /\
    THREE.meshPosition m = specPosition Math_cos Math_sin i.
Proof.
  intros Hi. rewrite buildBlockGroup_layout.
  destruct (nth_error blocks i) as [b|] eqn:Hb;
    [|apply nth_error_None in Hb; lia].
  eexists. exists (meshOf (List.length blocks) b i).
  split; [reflexivity|]. split.
  - unfold meshes. cbn [THREE.children]. now rewrite build_meshes, Hb.
  - rewrite blockMesh_position. unfold spiralPosition, specPosition.
    cbv zeta.
    now rewrite (number_mul_comm 3%float), (number_mul_comm 3%float).
Qed.

(** C4: the mesh of a block gets the highlight colour if and only if the
    block's [index] field equals N - 1, and the base colour otherwise; the
    highlight colour is brighter than the base colour in every channel;
    both materials are transparent with opacity 0.8. *)
Theorem mesh_material (blocks : list Block) (i : nat) (b : Block) :
  nth_error blocks i = Some b ->
  exists g m,
    build blocks = Normal g /\
    nth_error (meshes g) i = Some m /\
    (isHighlighted m = true
     <-> index b = Z.of_nat (List.length blocks) - 1) /\
    THREE.color (THREE.material m)
    = (if index b =? Z.of_nat (List.length blocks) - 1
       then highlightColor else baseColor) /\
    THREE.transparent (THREE.material m) = true /\
    THREE.opacity (THREE.material m) = 0.8%float /\
    (let '(r, g, b) := channels highlightColor in
     let '(r', g', b') := channels baseColor in
     r' < r /\ g' < g /\ b' < b).
Proof.
  intros Hb. rewrite buildBlockGroup_layout.
  eexists. exists (meshOf (List.length blocks) b i).
  split; [reflexivity|]. split.
  - unfold meshes. cbn [THREE.children]. now rewrite build_meshes, Hb.
  - unfold isHighlighted. rewrite blockMesh_material. unfold blockMaterial.
    cbn [THREE.color THREE.transparent THREE.opacity].
    assert (Hbright : let '(r, g, b) := channels highlightColor in
                      let '(r', g', b') := channels baseColor in
                      r' < r /\ g' < g /\ b' < b)
      by (vm_compute; auto).
    destruct (Z.eqb_spec (index b) (Z.of_nat (List.length blocks) - 1))
      as [E|E].
    + split; [split; [now intros _ | reflexivity]|].
      do 3 (split; [reflexivity|]). exact Hbright.
    + split; [split; [discriminate | contradiction]|].
      do 3 (split; [reflexivity|]). exact Hbright.
Qed.

(** C2, at four blocks: connector 3 starts at the origin, the position
    of the line in child slot 2, and not at the position of the mesh of
    block 2, whose height is 1. *)
Theorem connector_three_starts_at_origin :
  exists g l m,
    build (chain 4) = Normal g /\
    connector g 3 = Some l /\
    nth_error (meshes g) 2 = Some m /\
    nth_error (THREE.children g) 2
    = Some (THREE.LineObject
              (segment (place 0) (place 1))) /\
    startPoint l = THREE.origin /\
    THREE.y (THREE.meshPosition m) = 1%float /\
    startPoint l <> stored (THREE.meshPosition m).
Proof.
  rewrite buildBlockGroup_layout.
  eexists. eexists. eexists.
  split; [reflexivity|].
  split; [reflexivity|].
  split; [reflexivity|].
  split; [reflexivity|].
  split; [reflexivity|].
  split; [reflexivity|].
  intros H.
  apply (f_equal (fun p => PrimFloat.eqb (THREE.y p) 0%float)) in H.
  vm_compute in H. discriminate H.
Qed.

(** *** Highlighting *)

Lemma isHighlighted_blockMesh (n : nat) (b : Block) (i : nat) :
  isHighlighted (meshOf n b i) = (index b =? Z.of_nat n - 1).
Proof.
  unfold isHighlighted. rewrite blockMesh_material. unfold blockMaterial.
  cbn [THREE.color]. now destruct (index b =? Z.of_nat n - 1).
Qed.

Lemma layout_highlighted (n : nat) (bs : list Block) :
  forall k,
    List.length (filter isHighlighted (onlyMeshes (expected n bs k)))
    = List.length (filter (fun b => index b =? Z.of_nat n - 1) bs).
Proof.
  induction bs as [|b bs IH]; intros k; [reflexivity|].
  cbn [layout onlyMeshes filter]. rewrite isHighlighted_blockMesh.
  assert (E : onlyMeshes
                ((if (0 <? k)%nat
                  then [THREE.LineObject
                          (segment (slotPosition (k - 1)) (place k))]
                  else []) ++ expected n bs (S k))
              = onlyMeshes (expected n bs (S k)))
    by now destruct (0 <? k)%nat.
  rewrite E.
  destruct (index b =? Z.of_nat n - 1); cbn [List.length]; now rewrite IH.
Qed.

(** Among blocks whose [index] fields count up from [k], at most one
    has a given [index]. *)
Lemma count_index (t : Z) (bs : list Block) :
  forall k,
    (forall j b, nth_error bs j = Some b -> index b = Z.of_nat (k + j)) ->
    List.length (filter (fun b => index b =? t) bs)
    = if (Z.of_nat k <=? t) && (t <? Z.of_nat (k + List.length bs))
      then 1%nat else 0%nat.
Proof.
  induction bs as [|b bs IH]; intros k H.
  - cbn [filter List.length].
    destruct (Z.leb_spec (Z.of_nat k) t), (Z.ltb_spec t (Z.of_nat (k + 0)));
      cbn [andb]; try reflexivity; lia.
  - cbn [filter]. pose proof (H 0%nat b eq_refl) as Hb.
    assert (IH' := IH (S k) (fun j b' Hj =>
                  eq_trans (H (S j) b' Hj)
                           (f_equal Z.of_nat (Nat.add_succ_r k j)))).
    destruct (Z.eqb_spec (index b) t) as [E|E]; cbn [List.length];
      rewrite IH'; cbn [List.length];
      destruct (Z.leb_spec (Z.of_nat (S k)) t),
               (Z.ltb_spec t (Z.of_nat (S k + List.length bs))),
               (Z.leb_spec (Z.of_nat k) t),
               (Z.ltb_spec t (Z.of_nat (k + S (List.length bs))));
      cbn [andb]; try reflexivity; lia.
Qed.

(** C5, as the code has it: the number of highlighted meshes is the
    number of blocks whose [index] field equals N - 1; it is zero for
    the empty sequence, and exactly one for a non-empty sequence in which
    every block's [index] field is its array position. *)
Theorem highlighted_count (blocks : list Block) :
  exists g,
    build blocks = Normal g /\
    highlightedCount g = tipCount blocks /\
    (blocks = [] -> highlightedCount g = 0%nat) /\
    ((forall i b, nth_error blocks i = Some b -> index b = Z.of_nat i) ->
     blocks <> [] -> highlightedCount g = 1%nat).
Proof.
  rewrite buildBlockGroup_layout. eexists. split; [reflexivity|].
  unfold highlightedCount, meshes, tipCount. cbn [THREE.children].
  rewrite layout_highlighted. split; [reflexivity|]. split.
  - now intros ->.
  - intros Hpos Hne. rewrite (count_index _ blocks 0 Hpos).
    destruct blocks as [|b rest]; [contradiction|]. cbn [List.length].
    destruct (Z.leb_spec (Z.of_nat 0) (Z.of_nat (S (List.length rest)) - 1)),
             (Z.ltb_spec (Z.of_nat (S (List.length rest)) - 1)
                         (Z.of_nat (0 + S (List.length rest))));
      cbn [andb]; try reflexivity; lia.
Qed.

(** ** The lifecycle *)

Lemma effect_detached (blocks : list Block) (env : Env) :
  mountRef_current env = None ->
  effect Math_cos Math_sin blocks env = (Normal None, env).
Proof.
  intros H. unfold effect, bind, getMountRef. now rewrite H.
Qed.

(** What the effect sets up on an attached element, whatever its
    size. *)
Lemma effect_attached (blocks : list Block) (env : Env) (div : HTMLDivElement) :
  mountRef_current env = Some div ->
  exists c env' g,
    effect Math_cos Math_sin blocks env = (Normal (Some c), env') /\
    build blocks = Normal g /\
    blockGroup c = rotate g /\
    THREE.domElement (renderer c) = nextNode env /\
    THREE.targetWidth (renderer c) = clientWidth div /\
    THREE.targetHeight (renderer c) = clientHeight div /\
    THREE.drawCalls (renderer c) = 1%nat /\
    THREE.aspect (camera c)
    = (of_Z (clientWidth div) / of_Z (clientHeight div))%float /\
    frameId c = Some (nextHandle env) /\
    animationFrames env' = animationFrames env ++ [nextHandle env] /\
    mountRef_current env'
    = Some (mkDiv (clientWidth div) (clientHeight div)
                  (childNodes div ++ [nextNode env])).
Proof.
  intros H.
  unfold effect, bind, getMountRef, createCanvas, appendChild, lift.
  rewrite H. cbn [mountRef_current]. rewrite H.
  rewrite buildBlockGroup_layout.
  do 3 eexists. split; [reflexivity|]. split; [reflexivity|].
  cbn. repeat split; reflexivity.
Qed.

(** C6, as the code has it: the effect returns early, leaving the
    environment untouched and creating nothing, exactly when the ref is
    not attached; on an attached element of any size, zero width and
    height included, it creates the renderer and the scene, appends the
    canvas and requests the first frame.  Neither case throws. *)
Theorem bootstrap_skipped_iff_detached (blocks : list Block) (env : Env) :
  (result (effect Math_cos Math_sin blocks) env = Normal None
   <-> mountRef_current env = None) /\
  (mountRef_current env = None ->
   effect Math_cos Math_sin blocks env = (Normal None, env)) /\
  (forall div,
      mountRef_current env = Some div ->
      exists c env',
        effect Math_cos Math_sin blocks env = (Normal (Some c), env') /\
        THREE.targetWidth (renderer c) = clientWidth div /\
        THREE.targetHeight (renderer c) = clientHeight div /\
        THREE.aspect (camera c)
        = (of_Z (clientWidth div) / of_Z (clientHeight div))%float /\
        frameId c = Some (nextHandle env) /\
        hasNode (nextHandle env) (animationFrames env') = true /\
        (exists div', mountRef_current env' = Some div' /\
                      hasNode (THREE.domElement (renderer c))
                              (childNodes div') = true)).
Proof.
  split; [|split].
  - split.
    + intros H. destruct (mountRef_current env) as [div|] eqn:E;
        [|reflexivity].
      destruct (effect_attached blocks env div E)
        as (c & env' & g & He & _).
      unfold result in H. rewrite He in H. discriminate H.
    + intros H. unfold result. now rewrite effect_detached.
  - apply effect_detached.
  - intros div E.
    destruct (effect_attached blocks env div E)
      as (c & env' & g & He & _ & _ & Hdom & Hw & Hh & _ & Ha & Hf & Hfs & Hm).
    exists c, env'. repeat (split; [assumption|]). split.
    + rewrite Hfs, hasNode_app. cbn. now rewrite Nat.eqb_refl, orb_true_r.
    + eexists. split; [exact Hm|]. cbn [childNodes].
      rewrite Hdom, hasNode_app. cbn. now rewrite Nat.eqb_refl, orb_true_r.
Qed.

(** C7: the resize handler never throws and leaves the environment, the
    scene, the block group (children, placement, materials, rotation) and
    the pending frame as they are; of the camera it changes only the
    aspect ratio and the projection computed from it, of the renderer only
    the size of the render target. *)
Theorem resize_changes_only_size_and_aspect (c : Closure) (env : Env) :
  exists c',
    handleResize c env = (Normal c', env) /\
    blockGroup c' = blockGroup c /\
    scene c' = scene c /\
    frameId c' = frameId c /\
    THREE.fov (camera c') = THREE.fov (camera c) /\
    THREE.near (camera c') = THREE.near (camera c) /\
    THREE.far (camera c') = THREE.far (camera c) /\
    THREE.cameraPosition (camera c') = THREE.cameraPosition (camera c) /\
    THREE.target (camera c') = THREE.target (camera c) /\
    THREE.domElement (renderer c') = THREE.domElement (renderer c) /\
    THREE.drawCalls (renderer c') = THREE.drawCalls (renderer c) /\
    match mountRef_current env with
    | Some div =>
        THREE.targetWidth (renderer c') = clientWidth div /\
        THREE.targetHeight (renderer c') = clientHeight div /\
        THREE.aspect (camera c')
        = (of_Z (clientWidth div) / of_Z (clientHeight div))%float /\
        THREE.projectionMatrix (camera c')
        = THREE.mkProjection (THREE.fov (camera c))
            (THREE.aspect (camera c'))
            (THREE.near (camera c)) (THREE.far (camera c))
    | None => c' = c
    end.
Proof.
  unfold handleResize, bind, getMountRef.
  destruct (mountRef_current env) as [div|].
  - eexists. split; [reflexivity|]. cbn. repeat split; reflexivity.
  - exists c. repeat split; reflexivity.
Qed.

Lemma remove_twice (n : nat) (l : list nat) :
  remove Nat.eq_dec n (remove Nat.eq_dec n l) = remove Nat.eq_dec n l.
Proof. apply notin_remove, remove_In. Qed.

(** C8, as the code has it: the cleanup cancels the pending frame and
    removes the resize listener whenever it is invoked, so no render
    cycle is scheduled afterwards.  Invoked twice in a row it does not
    fault when the ref is detached; when the element is still attached,
    the first invocation removes the canvas and the second one faults with
    a [NotFoundError], because the canvas is no longer a child. *)
Theorem teardown_twice (c : Closure) (env : Env) :
  let once := after (cleanup c) env in
  (forall div,
      mountRef_current env = Some div ->
      hasNode (THREE.domElement (renderer c)) (childNodes div) = true ->
      cleanup c env = (Normal tt, once) /\
      cleanup c once = (Throw NotFoundError, once)) /\
  (mountRef_current env = None ->
   cleanup c env = (Normal tt, once) /\
   cleanup c once = (Normal tt, once)) /\
  (forall h, frameId c = Some h -> hasNode h (animationFrames once) = false) /\
  hasNode (THREE.domElement (renderer c)) (resizeListeners once) = false /\
  frame c once = (Normal c, once).
Proof.
  destruct env as [m ls fs nh nn]. cbv zeta.
  assert (Hframes : forall h, frameId c = Some h ->
            hasNode h (animationFrames
                         (after (cleanup c) (mkEnv m ls fs nh nn))) = false).
  { intros h Hh.
    unfold after, cleanup, bind, removeEventListener, cancelAnimationFrame,
      getMountRef, removeChild, ret, setMountRef.
    rewrite Hh. cbn -[hasNode remove].
    destruct m as [div|]; cbn -[hasNode remove];
      [destruct (hasNode _ (childNodes div)); cbn -[hasNode remove]|];
      apply hasNode_remove. }
  split; [|split; [|split; [exact Hframes|split]]].
  - intros div Hdiv Hchild. cbn in Hdiv. subst m.
    unfold after, cleanup, bind, removeEventListener, cancelAnimationFrame,
      getMountRef, removeChild, ret, setMountRef.
    destruct (frameId c) as [h|]; cbn -[hasNode remove];
      rewrite Hchild; cbn -[hasNode remove];
      rewrite hasNode_remove, !remove_twice; now split.
  - intros Hnone. cbn in Hnone. subst m.
    unfold after, cleanup, bind, removeEventListener, cancelAnimationFrame,
      getMountRef, removeChild, ret.
    destruct (frameId c) as [h|]; cbn -[hasNode remove];
      rewrite !remove_twice; now split.
  - unfold after, cleanup, bind, removeEventListener, cancelAnimationFrame,
      getMountRef, removeChild, ret, setMountRef.
    destruct (frameId c) as [h|]; cbn -[hasNode remove];
      (destruct m as [div|]; cbn -[hasNode remove];
       [destruct (hasNode _ (childNodes div)); cbn -[hasNode remove]|]);
      apply hasNode_remove.
  - unfold frame. destruct (frameId c) as [h|] eqn:Hh; [|reflexivity].
    now rewrite (Hframes h eq_refl).
Qed.

(** [k] render cycles always run to the end; they add [0.005] to the
    rotation about the vertical axis [k] times, issue [k] draw calls, and
    leave everything else in the closure as it was. *)
Lemma cycles_spec (k : nat) :
  forall (c : Closure) (env : Env),
  exists c' env',
    cycles k c env = (Normal c', env') /\
    scene c' = scene c /\
    camera c' = camera c /\
    THREE.children (blockGroup c') = THREE.children (blockGroup c) /\
    THREE.groupPosition (blockGroup c')
    = THREE.groupPosition (blockGroup c) /\
    THREE.x (THREE.rotation (blockGroup c'))
    = THREE.x (THREE.rotation (blockGroup c)) /\
    THREE.z (THREE.rotation (blockGroup c'))
    = THREE.z (THREE.rotation (blockGroup c)) /\
    THREE.y (THREE.rotation (blockGroup c'))
    = accumulate k (THREE.y (THREE.rotation (blockGroup c))) /\
    THREE.drawCalls (renderer c') = (THREE.drawCalls (renderer c) + k)%nat.
Proof.
  induction k as [|k IH]; intros c env.
  - exists c, env. cbn. rewrite Nat.add_0_r. repeat split; reflexivity.
  - cbn [cycles]. unfold bind at 1.
    unfold animate at 1, bind, requestAnimationFrame, ret.
    match goal with
    | |- context [cycles k ?c1 ?e1] =>
        destruct (IH c1 e1)
          as (c' & env' & Hc & Hs & Hcam & Hch & Hp & Hx & Hz & Hy & Hd)
    end.
    exists c', env'. split; [exact Hc|].
    cbn in Hs, Hcam, Hch, Hp, Hx, Hz, Hy, Hd.
    rewrite Hs, Hcam, Hch, Hp, Hx, Hz, Hy, Hd. cbn [accumulate].
    repeat split; try reflexivity. lia.
Qed.

(** C9, as the code has it: a render cycle adds [0.005] to the rotation
    about the vertical axis and touches nothing else of the scene graph.
    After [k] cycles from a freshly built scene the children, with their
    positions and materials, are those that were built, and [rotation.y]
    is the sum of [k] successive additions of [0.005] to 0, which equals
    [k * 0.005] for [k <= 5]. *)
Theorem render_cycles (blocks : list Block) (k : nat)
    (s : THREE.Scene) (cam : THREE.PerspectiveCamera)
    (r : THREE.WebGLRenderer) (env : Env) :
  exists g c' env',
    build blocks = Normal g /\
    cycles k (mkClosure s cam r g None) env = (Normal c', env') /\
    THREE.children (blockGroup c') = THREE.children g /\
    THREE.groupPosition (blockGroup c') = THREE.groupPosition g /\
    THREE.rotation (blockGroup c')
    = THREE.mkVector3 0%float (accumulate k 0%float) 0%float /\
    scene c' = s /\
    camera c' = cam /\
    THREE.drawCalls (renderer c') = (THREE.drawCalls r + k)%nat /\
    (forall v, accumulate 1 v = (v + 0.005)%float) /\
    (forall j, (j <= 5)%nat ->
               accumulate j 0%float = (of_nat j * 0.005)%float).
Proof.
  rewrite buildBlockGroup_layout. eexists.
  match goal with
  | |- context [cycles k ?c0 env] =>
      destruct (cycles_spec k c0 env)
        as (c' & env' & Hc & Hs & Hcam & Hch & Hp & Hx & Hz & Hy & Hd)
  end.
  exists c', env'. split; [reflexivity|]. split; [exact Hc|].
  cbn in Hs, Hcam, Hch, Hp, Hx, Hz, Hy, Hd.
  repeat (split; [assumption|]).
  split; [|split; [|split; [|split; [|split]]]]; try assumption.
  - destruct (THREE.rotation (blockGroup c')) as [rx ry rz].
    cbn in Hx, Hy, Hz. now subst.
  - reflexivity.
  - intros j Hj.
    do 6 (destruct j as [|j]; [vm_compute; reflexivity|]). lia.
Qed.

(** ** More on the connectors *)

(** Every connector, end to end: connector [i] ends at the stored
    position of the mesh of block [i]; it starts at the stored position
    of the child in slot [i - 1], which is the previous mesh for the first
    two connectors, the mesh of block [i / 2] for an even [i >= 4] and a
    line, at the origin, for an odd [i >= 3].  The line itself is never
    moved, holds six coordinates in items of three, and has the fixed
    connector colour. *)
Theorem connector_geometry (blocks : list Block) (i : nat) :
  (1 <= i < List.length blocks)%nat ->
  exists g l m,
    build blocks = Normal g /\
    connector g i = Some l /\
    nth_error (meshes g) i = Some m /\
    endPoint l = stored (THREE.meshPosition m) /\
    startPoint l
    = stored (if (i <=? 2)%nat then place (i - 1)
              else if Nat.even i then place (Nat.div2 i)
              else THREE.origin) /\
    THREE.linePosition l = THREE.origin /\
    List.length (THREE.array (THREE.lineGeometry l)) = 6%nat /\
    THREE.itemSize (THREE.lineGeometry l) = 3%nat /\
    THREE.lineColor (THREE.lineMaterial l) = 0x4c1d95.
Proof.
  intros Hi. rewrite buildBlockGroup_layout.
  destruct (nth_error blocks i) as [b|] eqn:Hb;
    [|apply nth_error_None in Hb; lia].
  eexists. exists (segment (slotPosition (i - 1)) (place i)).
  exists (meshOf (List.length blocks) b i).
  split; [reflexivity|]. split; [|split; [|split; [reflexivity|split]]].
  - destruct i as [|j]; [lia|]. unfold connector, lines.
    cbn [THREE.children]. rewrite <- (build_lines blocks (S j) Hi).
    now replace (S j - 1)%nat with j by lia.
  - unfold meshes. cbn [THREE.children]. now rewrite build_meshes, Hb.
  - cbn [startPoint segment THREE.newLine THREE.lineGeometry THREE.array
         Float32Array map nth]. unfold stored. f_equal.
    all: destruct i as [|[|[|i]]]; [lia|reflexivity|reflexivity|].
    all: cbn [Nat.leb]; replace (S (S (S i)) - 1)%nat with (S (S i)) by lia.
    all: unfold childPosition; cbn [Nat.eqb].
    all: rewrite <- (Nat.negb_even (S (S i))), (Nat.even_succ (S (S i))).
    all: rewrite <- (Nat.negb_even (S (S i))).
    all: now destruct (Nat.even (S (S i))).
  - repeat split; reflexivity.
Qed.

(** The builder looks at nothing of a block but its [index] field: two
    sequences whose blocks carry the same indices, in the same order,
    give the same group, whatever their hashes and transactions. *)
Lemma blockMesh_index (n : nat) (b b' : Block) (i : nat) :
  index b = index b' -> meshOf n b i = meshOf n b' i.
Proof.
  intros H. unfold blockMesh, blockMaterial. now rewrite H.
Qed.

Lemma layout_index (n : nat) (bs : list Block) :
  forall bs' k,
    map index bs = map index bs' -> expected n bs k = expected n bs' k.
Proof.
  induction bs as [|b bs IH]; intros [|b' bs'] k H; try discriminate H.
  - reflexivity.
  - cbn [map] in H. injection H as Hb Hrest. cbn [layout].
    now rewrite (blockMesh_index n b b' k Hb), (IH bs' (S k) Hrest).
Qed.

Theorem build_depends_on_indices_only (blocks blocks' : list Block) :
  map index blocks = map index blocks' ->
  build blocks = build blocks'.
Proof.
  intros H. rewrite !buildBlockGroup_layout.
  assert (Hlen : List.length blocks = List.length blocks')
    by (rewrite <- (length_map index blocks), H; apply length_map).
  now rewrite Hlen, (layout_index _ blocks blocks' 0 H).
Qed.

(** ** The handlers together *)

(** A resize between two frames can come before or after the next
    render cycle: the two handlers change different fields, so both
    orders give the same closure and environment; and a second resize
    of an unchanged element changes nothing. *)
Theorem resize_commutes_with_animate (c : Closure) (env : Env) :
  (c1 <- animate c ;; handleResize c1)%js env
  = (c1 <- handleResize c ;; animate c1)%js env /\
  (c1 <- handleResize c ;; handleResize c1)%js env = handleResize c env.
Proof.
  unfold bind, animate, handleResize, requestAnimationFrame, getMountRef,
    ret, bind.
  cbn [mountRef_current].
  destruct (mountRef_current env) as [div|] eqn:E.
  - cbn [mountRef_current]. rewrite ?E. split; reflexivity.
  - cbn [mountRef_current]. rewrite ?E. split; reflexivity.
Qed.

(** ** From mount to unmount *)

Lemma remove_last (n : nat) (l : list nat) :
  ~ In n l -> remove Nat.eq_dec n (l ++ [n]) = l.
Proof.
  intros H. rewrite remove_app, (notin_remove Nat.eq_dec l n H).
  cbn. destruct (Nat.eq_dec n n) as [_|E]; [apply app_nil_r | now elim E].
Qed.

Lemma allBelow_fresh (bound : nat) (l : list nat) :
  allBelow bound l -> ~ In bound l.
Proof. intros H Hin. apply H in Hin. lia. Qed.

Lemma allBelow_hasNode (bound : nat) (l : list nat) :
  allBelow bound l -> hasNode bound l = false.
Proof.
  intros H. destruct (hasNode bound l) eqn:E; [|reflexivity].
  apply hasNode_In in E. now apply allBelow_fresh in E.
Qed.

Lemma allBelow_weaken (a b : nat) (l : list nat) :
  (a <= b)%nat -> allBelow a l -> allBelow b l.
Proof. intros Hab H n Hn. apply H in Hn. lia. Qed.

Lemma accumulate_add (j k : nat) :
  forall v, accumulate (j + k) v = accumulate k (accumulate j v).
Proof. induction j as [|j IH]; intros v; [reflexivity|]. cbn. apply IH. Qed.

Lemma advanced_refl (c : Closure) : advanced 0 c c.
Proof.
  unfold advanced. cbn [accumulate Nat.add].
  destruct c as [s cam r g f], r, g as [ch [rx ry rz] gp]. cbn.
  repeat split; reflexivity.
Qed.

Lemma advanced_trans (j k : nat) (c c1 c2 : Closure) :
  advanced j c c1 -> advanced k c1 c2 -> advanced (j + k) c c2.
Proof.
  intros (Hs1 & Hc1 & Hr1 & Hg1) (Hs2 & Hc2 & Hr2 & Hg2).
  unfold advanced. rewrite Hs2, Hc2, Hr2, Hg2, Hs1, Hc1, Hr1, Hg1. cbn.
  rewrite accumulate_add.
  replace (k + (j + THREE.drawCalls (renderer c)))%nat
    with (j + k + THREE.drawCalls (renderer c))%nat by lia.
  repeat split; reflexivity.
Qed.

(** The environment a render cycle leaves, and the closure. *)
Lemma animate_spec (c : Closure) (env : Env) :
  exists c',
    animate c env
    = (Normal c',
       mkEnv (mountRef_current env) (resizeListeners env)
             (animationFrames env ++ [nextHandle env])
             (S (nextHandle env)) (nextNode env)) /\
    frameId c' = Some (nextHandle env) /\
    advanced 1 c c'.
Proof.
  eexists. split; [reflexivity|]. split; [reflexivity|].
  unfold advanced. cbn. repeat split; reflexivity.
Qed.

(** A frame whose request is the last one pending. *)
Lemma frame_spec (c : Closure) (m : option HTMLDivElement)
    (ls fs : list nat) (h nh nn : nat) :
  frameId c = Some h -> ~ In h fs ->
  exists c',
    frame c (mkEnv m ls (fs ++ [h]) nh nn)
    = (Normal c', mkEnv m ls (fs ++ [nh]) (S nh) nn) /\
    frameId c' = Some nh /\
    advanced 1 c c'.
Proof.
  intros Hf Hh. unfold frame. rewrite Hf.
  cbn [animationFrames]. rewrite hasNode_app. cbn [hasNode existsb].
  rewrite Nat.eqb_refl, orb_true_r.
  unfold bind, takeFrame, cancelAnimationFrame.
  cbn [mountRef_current resizeListeners animationFrames nextHandle nextNode].
  rewrite (remove_last h fs Hh).
  destruct (animate_spec c (mkEnv m ls fs nh nn)) as (c' & Ha & Hid & Hadv).
  exists c'. split; [exact Ha|]. now split.
Qed.

Lemma frames_spec (k : nat) :
  forall (c : Closure) (m : option HTMLDivElement)
         (ls fs : list nat) (h nh nn : nat),
    frameId c = Some h -> allBelow h fs -> (h < nh)%nat ->
    exists c' h',
      frames k c (mkEnv m ls (fs ++ [h]) nh nn)
      = (Normal c', mkEnv m ls (fs ++ [h']) (nh + k) nn) /\
      frameId c' = Some h' /\
      allBelow h' fs /\ (h' < nh + k)%nat /\
      advanced k c c'.
Proof.
  induction k as [|k IH]; intros c m ls fs h nh nn Hf Hfs Hh.
  - exists c, h. rewrite Nat.add_0_r. cbn [frames ret].
    split; [reflexivity|]. do 3 (split; [assumption|]). apply advanced_refl.
  - cbn [frames]. unfold bind at 1.
    destruct (frame_spec c m ls fs h nh nn Hf (allBelow_fresh _ _ Hfs))
      as (c1 & -> & Hf1 & Hadv1).
    destruct (IH c1 m ls fs nh (S nh) nn Hf1
                 (allBelow_weaken h nh fs ltac:(lia) Hfs) ltac:(lia))
      as (c' & h' & Hrun & Hf' & Hfs' & Hh' & Hadv).
    exists c', h'. replace (nh + S k)%nat with (S nh + k)%nat by lia.
    do 4 (split; [assumption|]).
    exact (advanced_trans 1 k c c1 c' Hadv1 Hadv).
Qed.

(** The closure and the environment the effect leaves on an attached
    element. *)
Lemma effect_spec (blocks : list Block) (div : HTMLDivElement)
    (ls fs : list nat) (nh nn : nat) :
  exists c g,
    effect Math_cos Math_sin blocks (mkEnv (Some div) ls fs nh nn)
    = (Normal (Some c),
       mkEnv (Some (mkDiv (clientWidth div) (clientHeight div)
                          (childNodes div ++ [nn])))
             (if hasNode nn ls then ls else ls ++ [nn])
             (fs ++ [nh]) (S nh) (S nn)) /\
    build blocks = Normal g /\
    blockGroup c = rotate g /\
    THREE.rotation g = THREE.origin /\
    THREE.groupPosition g = THREE.origin /\
    THREE.domElement (renderer c) = nn /\
    THREE.drawCalls (renderer c) = 1%nat /\
    frameId c = Some nh.
Proof.
  unfold effect, bind, getMountRef, createCanvas, appendChild, lift.
  cbn [mountRef_current resizeListeners animationFrames nextHandle nextNode].
  rewrite buildBlockGroup_layout.
  do 2 eexists. split; [reflexivity|]. split; [reflexivity|].
  cbn. repeat split; reflexivity.
Qed.

(** After the mount and any number of frames, exactly one frame request
    of the closure is pending, the one [frameId] holds; there has been one
    draw call per cycle, and the group is the built one, turned once per
    cycle. *)
Theorem one_pending_frame (blocks : list Block) (env : Env)
    (div : HTMLDivElement) (k : nat) :
  mountRef_current env = Some div ->
  allBelow (nextHandle env) (animationFrames env) ->
  exists c0 env0 c env' g h,
    effect Math_cos Math_sin blocks env = (Normal (Some c0), env0) /\
    frames k c0 env0 = (Normal c, env') /\
    build blocks = Normal g /\
    frameId c = Some h /\
    animationFrames env' = animationFrames env ++ [h] /\
    ~ In h (animationFrames env) /\
    THREE.drawCalls (renderer c) = S k /\
    blockGroup c
    = THREE.mkGroup (THREE.children g)
        (THREE.mkVector3 0%float (accumulate (S k) 0%float) 0%float)
        THREE.origin.
Proof.
  destruct env as [m ls fs nh nn]. cbn. intros -> Hfs.
  destruct (effect_spec blocks div ls fs nh nn)
    as (c0 & g & He & Hg & Hbg & Hrot & Hpos & _ & Hd & Hf0).
  destruct (frames_spec k c0
              (Some (mkDiv (clientWidth div) (clientHeight div)
                           (childNodes div ++ [nn])))
              (if hasNode nn ls then ls else ls ++ [nn])
              fs nh (S nh) (S nn) Hf0 Hfs ltac:(lia))
    as (c & h & Hrun & Hf & Hfs' & _ & _ & _ & Hr & Hgr).
  exists c0. eexists. exists c. eexists. exists g, h.
  split; [exact He|]. split; [exact Hrun|]. split; [exact Hg|].
  split; [exact Hf|]. split; [reflexivity|].
  split; [exact (allBelow_fresh _ _ Hfs')|].
  rewrite Hr, Hgr, Hd, Hbg. unfold rotate. rewrite Hrot, Hpos.
  cbn [THREE.drawCalls THREE.children THREE.rotation THREE.groupPosition
       THREE.x THREE.y THREE.z THREE.origin accumulate].
  split; [lia | reflexivity].
Qed.

Lemma cleanup_spec (c : Closure) (div : HTMLDivElement)
    (ls fs : list nat) (h nh nn : nat) :
  frameId c = Some h ->
  hasNode (THREE.domElement (renderer c)) (childNodes div) = true ->
  cleanup c (mkEnv (Some div) ls fs nh nn)
  = (Normal tt,
     mkEnv (Some (mkDiv (clientWidth div) (clientHeight div)
                        (remove Nat.eq_dec (THREE.domElement (renderer c))
                                (childNodes div))))
           (remove Nat.eq_dec (THREE.domElement (renderer c)) ls)
           (remove Nat.eq_dec h fs) nh nn).
Proof.
  intros Hf Hchild.
  unfold cleanup, bind, removeEventListener, cancelAnimationFrame,
    getMountRef, removeChild, setMountRef.
  rewrite Hf. cbn -[hasNode remove]. rewrite Hchild. reflexivity.
Qed.

(** Mount, [k] frames, unmount, in closed form. *)
Lemma lifecycle_spec (blocks : list Block) (div : HTMLDivElement)
    (ls fs : list nat) (nh nn k : nat) :
  allBelow nh fs -> allBelow nn (childNodes div) -> allBelow nn ls ->
  exists c0 env0 c env1,
    effect Math_cos Math_sin blocks (mkEnv (Some div) ls fs nh nn)
    = (Normal (Some c0), env0) /\
    frames k c0 env0 = (Normal c, env1) /\
    THREE.domElement (renderer c) = nn /\
    cleanup c env1
    = (Normal tt, mkEnv (Some div) ls fs (S nh + k) (S nn)).
Proof.
  intros Hfs Hch Hls.
  destruct (effect_spec blocks div ls fs nh nn)
    as (c0 & g & He & _ & _ & _ & _ & Hdom & _ & Hf0).
  rewrite (allBelow_hasNode nn ls Hls) in He.
  destruct (frames_spec k c0
              (Some (mkDiv (clientWidth div) (clientHeight div)
                           (childNodes div ++ [nn])))
              (ls ++ [nn]) fs nh (S nh) (S nn) Hf0 Hfs ltac:(lia))
    as (c & h & Hrun & Hf & Hfs' & _ & _ & _ & Hr & _).
  assert (Hdom' : THREE.domElement (renderer c) = nn)
    by (rewrite Hr; exact Hdom).
  exists c0. eexists. exists c. eexists.
  split; [exact He|]. split; [exact Hrun|]. split; [exact Hdom'|].
  rewrite (cleanup_spec c _ _ _ h _ _ Hf).
  - rewrite Hdom'. cbn [clientWidth clientHeight childNodes].
    rewrite !remove_last
      by (apply allBelow_fresh; assumption).
    now destruct div.
  - rewrite Hdom'. cbn [childNodes]. rewrite hasNode_app. cbn.
    now rewrite Nat.eqb_refl, orb_true_r.
Qed.

(** Mounting, running any number of frames and unmounting while the
    element is attached leaves the page as it was: the canvas is gone
    from the element, the resize listener from the window, and no frame
    request of the closure is pending. *)
Theorem mount_unmount_restores (blocks : list Block) (env : Env)
    (div : HTMLDivElement) (k : nat) :
  mountRef_current env = Some div ->
  allBelow (nextHandle env) (animationFrames env) ->
  allBelow (nextNode env) (childNodes div) ->
  allBelow (nextNode env) (resizeListeners env) ->
  exists c0 env0 c env1 env2,
    effect Math_cos Math_sin blocks env = (Normal (Some c0), env0) /\
    frames k c0 env0 = (Normal c, env1) /\
    cleanup c env1 = (Normal tt, env2) /\
    mountRef_current env2 = Some div /\
    resizeListeners env2 = resizeListeners env /\
    animationFrames env2 = animationFrames env.
Proof.
  destruct env as [m ls fs nh nn]. cbn. intros -> Hfs Hch Hls.
  destruct (lifecycle_spec blocks div ls fs nh nn k Hfs Hch Hls)
    as (c0 & env0 & c & env1 & He & Hrun & _ & Hclean).
  exists c0, env0, c, env1. eexists.
  split; [exact He|]. split; [exact Hrun|]. split; [exact Hclean|].
  repeat split; reflexivity.
Qed.

(** When the block sequence is replaced, the cleanup of the old closure
    runs before the effect of the new one: the element then holds the new
    canvas and not the old one, the window holds one more resize listener
    than before the first mount, one frame request is pending, and the new
    group starts from its first turn whatever the old one had reached. *)
Theorem rebuild_replaces_scene (blocks blocks' : list Block) (env : Env)
    (div : HTMLDivElement) (k : nat) :
  mountRef_current env = Some div ->
  allBelow (nextHandle env) (animationFrames env) ->
  allBelow (nextNode env) (childNodes div) ->
  allBelow (nextNode env) (resizeListeners env) ->
  exists c0 env0 c env1 env2 c' env3 g' h,
    effect Math_cos Math_sin blocks env = (Normal (Some c0), env0) /\
    frames k c0 env0 = (Normal c, env1) /\
    cleanup c env1 = (Normal tt, env2) /\
    effect Math_cos Math_sin blocks' env2 = (Normal (Some c'), env3) /\
    build blocks' = Normal g' /\
    blockGroup c' = rotate g' /\
    THREE.domElement (renderer c') <> THREE.domElement (renderer c) /\
    mountRef_current env3
    = Some (mkDiv (clientWidth div) (clientHeight div)
                  (childNodes div ++ [THREE.domElement (renderer c')])) /\
    resizeListeners env3
    = resizeListeners env ++ [THREE.domElement (renderer c')] /\
    frameId c' = Some h /\
    animationFrames env3 = animationFrames env ++ [h].
Proof.
  destruct env as [m ls fs nh nn]. cbn. intros -> Hfs Hch Hls.
  destruct (lifecycle_spec blocks div ls fs nh nn k Hfs Hch Hls)
    as (c0 & env0 & c & env1 & He & Hrun & Hdom & Hclean).
  destruct (effect_spec blocks' div ls fs (S nh + k) (S nn))
    as (c' & g' & He' & Hg' & Hbg' & _ & _ & Hdom' & _ & Hf').
  rewrite (allBelow_hasNode (S nn) ls
             (allBelow_weaken nn (S nn) ls ltac:(lia) Hls)) in He'.
  exists c0, env0, c, env1. eexists. exists c'. eexists.
  exists g', (S nh + k)%nat.
  split; [exact He|]. split; [exact Hrun|]. split; [exact Hclean|].
  split; [exact He'|]. split; [exact Hg'|]. split; [exact Hbg'|].
  rewrite Hdom, Hdom'. split; [lia|]. cbn. repeat split; assumption.
Qed.

End Properties.

(** * The component on concrete inputs *)

Lemma mesh_position_witness :
  (1 < List.length (chain 3))%nat /\
  exists g m,
    buildBlockGroup Engine.cos Engine.sin (chain 3) = Normal g /\
    nth_error (meshes g) 1 = Some m /\
    THREE.meshPosition m
    = THREE.mkVector3 (3 * Engine.cos 0.5)%float 0.5%float
                      (3 * Engine.sin 0.5)%float.
Proof.
  split; [simpl; lia|].
  exact (mesh_position Engine.cos Engine.sin (chain 3) 1
           ltac:(simpl; lia)).
Defined.

Lemma mesh_material_witness :
  nth_error (chain 3) 2 = Some (block 2) /\
  exists g m,
    buildBlockGroup Engine.cos Engine.sin (chain 3) = Normal g /\
    nth_error (meshes g) 2 = Some m /\
    isHighlighted m = true /\
    THREE.color (THREE.material m) = highlightColor /\
    THREE.opacity (THREE.material m) = 0.8%float.
Proof.
  split; [reflexivity|].
  destruct (mesh_material Engine.cos Engine.sin (chain 3) 2 (block 2)
              eq_refl)
    as (g & m & Hg & Hm & Hi & Hc & _ & Ho & _).
  exists g, m. repeat split; try assumption.
  now apply Hi.
Defined.

Lemma interleaved_children_witness :
  exists g l,
    buildBlockGroup Engine.cos Engine.sin (chain 3) = Normal g /\
    List.length (THREE.children g) = 5%nat /\
    nth_error (THREE.children g) 3
    = Some (THREE.MeshObject
              (blockMesh Engine.cos Engine.sin 3 (block 2) 2)) /\
    connector g 2 = Some l /\
    nth_error (THREE.children g) 4 = Some (THREE.LineObject l).
Proof.
  destruct (interleaved_children Engine.cos Engine.sin (chain 3))
    as (g & Hg & Hlen & Hmesh & Hline).
  destruct (Hline 2%nat ltac:(simpl; lia)) as (l & Hl & Hslot).
  exists g, l. repeat split; try assumption.
  exact (Hmesh 2%nat (block 2) eq_refl).
Defined.

Lemma highlighted_count_witness :
  exists g,
    buildBlockGroup Engine.cos Engine.sin (chain 3) = Normal g /\
    highlightedCount g = 1%nat.
Proof.
  destruct (highlighted_count Engine.cos Engine.sin (chain 3))
    as (g & Hg & _ & _ & Hone).
  exists g. split; [assumption|]. apply Hone.
  - intros [|[|[|i]]] b H; simpl in H; try (injection H as <-; reflexivity).
    now destruct i.
  - discriminate.
Defined.

(** C5 fails for arbitrary [index] fields: of two blocks that both carry
    index 0 none is highlighted, and of two blocks that both carry
    index 1 both are. *)
Lemma not_exactly_one_highlighted :
  (exists g,
      buildBlockGroup Engine.cos Engine.sin [block 0; block 0] = Normal g /\
      highlightedCount g = 0%nat) /\
  (exists g,
      buildBlockGroup Engine.cos Engine.sin [block 1; block 1] = Normal g /\
      highlightedCount g = 2%nat) /\
  ~ (forall blocks g,
        buildBlockGroup Engine.cos Engine.sin blocks = Normal g ->
        (1 <= List.length blocks)%nat ->
        highlightedCount g = 1%nat).
Proof.
  split; [|split].
  - eexists. split; reflexivity.
  - eexists. split; reflexivity.
  - intros H.
    specialize (H [block 0; block 0] _ eq_refl ltac:(simpl; lia)).
    discriminate H.
Qed.

Lemma bootstrap_witness :
  effect Engine.cos Engine.sin (chain 2) (detach (mounted 800 400))
  = (Normal None, detach (mounted 800 400)) /\
  exists c env',
    effect Engine.cos Engine.sin (chain 2) (mounted 800 400)
    = (Normal (Some c), env') /\
    THREE.aspect (camera c) = 2%float /\
    frameId c = Some 1%nat.
Proof.
  destruct (bootstrap_skipped_iff_detached Engine.cos Engine.sin (chain 2)
              (detach (mounted 800 400))) as (_ & Hskip & _).
  destruct (bootstrap_skipped_iff_detached Engine.cos Engine.sin (chain 2)
              (mounted 800 400)) as (_ & _ & Hrun).
  split; [exact (Hskip eq_refl)|].
  destruct (Hrun _ eq_refl) as (c & env' & He & _ & _ & Ha & Hf & _).
  exists c, env'. repeat split; assumption.
Defined.

(** C6 fails for a surface of zero size: on an attached element that is
    0 by 0 the effect still creates the renderer and the group, appends
    the canvas and leaves a frame request pending. *)
Lemma zero_size_surface_is_bootstrapped :
  (exists c env',
      effect Engine.cos Engine.sin (chain 2) (mounted 0 0)
      = (Normal (Some c), env') /\
      mountRef_current env' = Some (mkDiv 0 0 [THREE.domElement (renderer c)]) /\
      List.length (meshes (blockGroup c)) = 2%nat /\
      THREE.drawCalls (renderer c) = 1%nat /\
      frameId c = Some 1%nat /\
      animationFrames env' = [1%nat]) /\
  ~ (forall blocks env div,
        mountRef_current env = Some div ->
        clientWidth div = 0 \/ clientHeight div = 0 ->
        effect Engine.cos Engine.sin blocks env = (Normal None, env)).
Proof.
  split.
  - do 2 eexists. split; [vm_compute; reflexivity|].
    repeat split; reflexivity.
  - intros H.
    specialize (H (chain 2) (mounted 0 0) _ eq_refl (or_introl eq_refl)).
    vm_compute in H. discriminate H.
Qed.

Lemma teardown_twice_witness :
  exists c env,
    effect Engine.cos Engine.sin (chain 2) (mounted 800 400)
    = (Normal (Some c), env) /\
    result (cleanup c) env = Normal tt /\
    animationFrames (after (cleanup c) env) = [] /\
    result (cleanup c) (detach env) = Normal tt /\
    result (cleanup c) (after (cleanup c) (detach env)) = Normal tt.
Proof.
  do 2 eexists. split; [vm_compute; reflexivity|].
  match goal with
  | |- result (cleanup ?c) ?env = _ /\ _ =>
      destruct (teardown_twice c env) as (Hatt & _);
      destruct (teardown_twice c (detach env)) as (_ & Hdet & _);
      destruct (Hatt _ eq_refl eq_refl) as [H1 _];
      destruct (Hdet eq_refl) as [H2 H3]
  end.
  unfold result. rewrite H1, H2, H3. repeat split; reflexivity.
Defined.

(** C8 fails while the element is attached: after a mount, the first
    cleanup succeeds and the second one throws. *)
Lemma second_teardown_faults :
  exists c env1 env2,
    effect Engine.cos Engine.sin (chain 2) (mounted 800 400)
    = (Normal (Some c), env1) /\
    cleanup c env1 = (Normal tt, env2) /\
    cleanup c env2 = (Throw NotFoundError, env2).
Proof.
  do 3 eexists. split; [vm_compute; reflexivity|].
  split; vm_compute; reflexivity.
Qed.

Lemma render_cycles_witness :
  exists g c' env',
    buildBlockGroup Engine.cos Engine.sin (chain 3) = Normal g /\
    cycles 5 (mkClosure (THREE.mkScene [])
                        (THREE.newPerspectiveCamera 75%float 2%float 0.1%float 1000%float)
                        (THREE.mkRenderer 0 true true 800 400 0)
                        g None) (mounted 800 400)
    = (Normal c', env') /\
    THREE.children (blockGroup c') = THREE.children g /\
    THREE.y (THREE.rotation (blockGroup c')) = (of_nat 5 * 0.005)%float.
Proof.
  destruct (render_cycles Engine.cos Engine.sin (chain 3) 5
              (THREE.mkScene [])
              (THREE.newPerspectiveCamera 75%float 2%float 0.1%float 1000%float)
              (THREE.mkRenderer 0 true true 800 400 0) (mounted 800 400))
    as (g & c' & env' & Hg & Hc & Hch & _ & Hrot & _ & _ & _ & _ & Hsmall).
  exists g, c', env'. repeat split; try assumption.
  rewrite Hrot. exact (Hsmall 5%nat ltac:(lia)).
Defined.

(** C9 fails at the sixth cycle: the effect runs one cycle itself, and
    after five more frames [rotation.y] is the sum of six additions of
    0.005, which is not [6 * 0.005]. *)
Lemma six_cycles_drift :
  exists c env c' env',
    effect Engine.cos Engine.sin (chain 3) (mounted 800 400)
    = (Normal (Some c), env) /\
    cycles 5 c env = (Normal c', env') /\
    THREE.y (THREE.rotation (blockGroup c')) = accumulate 6 0%float /\
    PrimFloat.ltb (of_nat 6 * 0.005)%float
                  (THREE.y (THREE.rotation (blockGroup c'))) = true /\
    THREE.y (THREE.rotation (blockGroup c')) <> (of_nat 6 * 0.005)%float.
Proof.
  do 4 eexists. split; [vm_compute; reflexivity|].
  split; [vm_compute; reflexivity|].
  split; [vm_compute; reflexivity|].
  split; [vm_compute; reflexivity|].
  intros H.
  apply (f_equal (fun v => PrimFloat.eqb v (of_nat 6 * 0.005)%float)) in H.
  vm_compute in H. discriminate H.
Qed.

(** * Properties of the dashboard page *)

Section HomeProperties.

Import Home.
Local Open Scope string_scope.

(** ** The address of the API *)

Lemma length_append (a b : string) :
  String.length (a ++ b) = (String.length a + String.length b)%nat.
Proof. induction a as [|ch a IH]; cbn; [reflexivity | now rewrite IH]. Qed.

Lemma append_assoc (a b c : string) : (a ++ b) ++ c = a ++ b ++ c.
Proof. induction a as [|ch a IH]; cbn; [reflexivity | now rewrite IH]. Qed.

Lemma append_inj (s a b : string) : s ++ a = s ++ b -> a = b.
Proof.
  induction s as [|ch s IH]; cbn; intros H; [assumption|].
  injection H as H. now apply IH.
Qed.

Lemma stripPrefix_append (p r : string) : stripPrefix p (p ++ r) = Some r.
Proof.
  induction p as [|ch p IH]; cbn; [reflexivity|].
  now rewrite Ascii.eqb_refl.
Qed.

Lemma stripPrefix_Some (p : string) :
  forall s r, stripPrefix p s = Some r -> s = p ++ r.
Proof.
  induction p as [|a p IH]; intros s r H; cbn in H.
  - now injection H as ->.
  - destruct s as [|b s]; [discriminate H|].
    destruct (Ascii.eqb_spec a b) as [->|_]; [|discriminate H].
    cbn. f_equal. now apply IH.
Qed.

Lemma replace_length (searchValue replaceValue : string) :
  String.length replaceValue = String.length searchValue ->
  forall s,
    String.length (replace searchValue replaceValue s) = String.length s.
Proof.
  intros Hlen. induction s as [|ch s IH].
  - cbn [replace]. destruct (stripPrefix searchValue "") as [r|] eqn:E;
      [|reflexivity].
    apply stripPrefix_Some in E.
    transitivity (String.length (searchValue ++ r));
      [now rewrite !length_append, Hlen | now rewrite <- E].
  - cbn [replace].
    destruct (stripPrefix searchValue (String ch s)) as [r|] eqn:E.
    + apply stripPrefix_Some in E.
      transitivity (String.length (searchValue ++ r));
        [now rewrite !length_append, Hlen | now rewrite <- E].
    + cbn. now rewrite IH.
Qed.

Lemma replace_absent (searchValue replaceValue : string) :
  forall s,
    (forall a b, s <> a ++ searchValue ++ b) ->
    replace searchValue replaceValue s = s.
Proof.
  induction s as [|ch s IH]; intros H.
  - cbn [replace]. destruct (stripPrefix searchValue "") as [r|] eqn:E;
      [|reflexivity].
    apply stripPrefix_Some in E. now elim (H "" r).
  - cbn [replace].
    destruct (stripPrefix searchValue (String ch s)) as [r|] eqn:E.
    + apply stripPrefix_Some in E. now elim (H "" r).
    + f_equal. apply IH. intros a b Hs. apply (H (String ch a) b).
      cbn. now rewrite Hs.
Qed.

Lemma replace_port_first (p q : string) :
  (forall ch, In ch (list_ascii_of_string p) -> ch <> "3"%char) ->
  replace "3000" "8080" (p ++ "3000" ++ q) = p ++ "8080" ++ q.
Proof.
  induction p as [|ch p IH]; intros H.
  - reflexivity.
  - assert (Hch : ch <> "3"%char) by (apply H; now left).
    cbn [append replace stripPrefix].
    destruct (Ascii.eqb_spec "3" ch) as [E|_]; [now elim Hch|].
    f_equal. apply IH. intros c Hc. apply H. now right.
Qed.

Lemma no_digit_no_port (s : string) :
  (forall ch, In ch (list_ascii_of_string s) -> ch <> "3"%char) ->
  forall a b, s <> a ++ "3000" ++ b.
Proof.
  intros H a b E. apply (H "3"%char); [|reflexivity]. rewrite E. clear.
  induction a as [|ch a IH]; cbn; [now left | now right].
Qed.

(** In the browser the address of the API is [https://] and the host
    name of the page with its first [3000] replaced by [8080]: the
    address is as long as [https://] and the host name together; a host
    name without [3000] is kept; and in a host name that reads [3000]
    after a part without the digit 3, that [3000] is the one replaced,
    whatever follows it. *)
Theorem api_base_url_swaps_first_port (hostname : string) :
  String.length (API_BASE_URL (Some hostname))
  = (8 + String.length hostname)%nat /\
  ((forall a b, hostname <> a ++ "3000" ++ b) ->
   API_BASE_URL (Some hostname) = "https://" ++ hostname) /\
  (forall p q,
      hostname = p ++ "3000" ++ q ->
      (forall ch, In ch (list_ascii_of_string p) -> ch <> "3"%char) ->
      API_BASE_URL (Some hostname) = "https://" ++ p ++ "8080" ++ q).
Proof.
  unfold API_BASE_URL. split; [|split].
  - rewrite length_append, (replace_length "3000" "8080" eq_refl).
    reflexivity.
  - intros H. now rewrite replace_absent.
  - intros p q -> H. now rewrite replace_port_first.
Qed.

(** ** The handlers *)

Variable window : option string.
Variable nullProperty : string -> string.
Variable NumberToString : number -> string.

Local Abbreviation api := (API_BASE_URL window).

Lemma ok_range (status : nat) (b : json + thrown) :
  ok (mkResponse status b) = true <-> (200 <= status <= 299)%nat.
Proof.
  unfold ok. cbn [Home.status].
  rewrite andb_true_iff, !Nat.leb_le. reflexivity.
Qed.

(** The two shapes of a call of [fetchBlocks]. *)
Lemma fetchBlocks_cases (chain : fetched) :
  (exists status data items,
      chain = Resolved (mkResponse status (inl data)) /\
      ok (mkResponse status (inl data)) = true /\
      optional data "chain" = Some (JArray items) /\
      fetchBlocks window chain
      = ([fetch_ (api ++ "/chain") None; setBlocks items; setLoading false],
         Returned tt)) \/
  ((forall status data items,
       chain = Resolved (mkResponse status (inl data)) ->
       ok (mkResponse status (inl data)) = true ->
       optional data "chain" <> Some (JArray items)) /\
   exists message,
     fetchBlocks window chain
     = ([fetch_ (api ++ "/chain") None;
         console_error "Error in fetchBlocks:" message "fetchBlocks";
         fetchFailureToast; setLoading false],
        Returned tt)).
Proof.
  unfold fetchBlocks, fetch, json_, logError.
  destruct chain as [reason|[status [data|reason]]].
  - right. split; [intros ? ? ? H; discriminate H|].
    eexists. cbn. reflexivity.
  - destruct (ok (mkResponse status (inl data))) eqn:Hok.
    + destruct (optional data "chain") as [v|] eqn:Hopt.
      * destruct v as [| | | |items|];
          try (right; split;
               [intros ? ? ? H Hok' Hopt'; injection H as <- <-; congruence|];
               eexists; cbn -[optional ok]; rewrite Hok;
               cbn -[optional ok]; rewrite Hopt; reflexivity).
        left. exists status, data, items.
        do 3 (split; [assumption || reflexivity|]).
        cbn -[optional ok]. rewrite Hok. cbn -[optional ok].
        rewrite Hopt. reflexivity.
      * right. split;
          [intros ? ? ? H Hok' Hopt'; injection H as <- <-; congruence|].
        eexists. cbn -[optional ok]. rewrite Hok. cbn -[optional ok].
        rewrite Hopt. reflexivity.
    + right. split;
        [intros ? ? ? H Hok' Hopt'; injection H as <- <-; congruence|].
      eexists. cbn -[optional ok]. rewrite Hok. reflexivity.
  - right. split; [intros ? ? ? H; discriminate H|].
    destruct (ok (mkResponse status (inr reason))) eqn:Hok;
      eexists; cbn -[ok]; rewrite Hok; reflexivity.
Qed.

Lemma fetchBlocks_shape (chain : fetched) :
  exists middle,
    fetchBlocks window chain
    = (fetch_ (api ++ "/chain") None :: middle ++ [setLoading false],
       Returned tt) /\
    ((exists items, middle = [setBlocks items]) \/
     (exists message,
         middle = [console_error "Error in fetchBlocks:" message
                     "fetchBlocks";
                   fetchFailureToast])).
Proof.
  destruct (fetchBlocks_cases chain)
    as [(status & data & items & _ & _ & _ & ->)|(_ & message & ->)].
  - exists [setBlocks items]. split; [reflexivity|]. left. now exists items.
  - exists [console_error "Error in fetchBlocks:" message "fetchBlocks";
            fetchFailureToast].
    split; [reflexivity|]. right. now exists message.
Qed.

(** [fetchBlocks] never rejects and always ends by clearing the loading
    flag, whatever the network answers: it sends one request, does at
    most two more things, and then sets [loading] to false, once. *)
Theorem fetchBlocks_always_clears_loading (chain : fetched) :
  exists middle,
    fetchBlocks window chain
    = (fetch_ (api ++ "/chain") None :: middle ++ [setLoading false],
       Returned tt) /\
    (forall value, ~ In (setLoading value) middle) /\
    (forall url init, ~ In (fetch_ url init) middle) /\
    (List.length middle <= 2)%nat.
Proof.
  destruct (fetchBlocks_shape chain)
    as (middle & -> & [(items & ->)|(message & ->)]);
    eexists; (split; [reflexivity|]); cbn; repeat split; try lia;
    intros; intuition discriminate.
Qed.

(** [fetchBlocks] replaces the blocks exactly when the response has a
    status from 200 to 299 and a JSON body whose [chain] member is an
    array, and then by that array. *)
Theorem fetchBlocks_replaces_blocks_iff_valid (chain : fetched)
    (items : list json) :
  In (setBlocks items) (fst (fetchBlocks window chain)) <->
  exists status data,
    chain = Resolved (mkResponse status (inl data)) /\
    (200 <= status <= 299)%nat /\
    optional data "chain" = Some (JArray items).
Proof.
  destruct (fetchBlocks_cases chain)
    as [(status & data & items' & Hc & Hok & Hopt & ->)
       |(Hnot & message & ->)]; cbn [fst]; split.
  - intros [H|[H|[H|[]]]]; try discriminate H. injection H as <-.
    exists status, data. split; [assumption|]. split; [|assumption].
    now apply (ok_range status (inl data)).
  - intros (status' & data' & Hc' & _ & Hopt'). rewrite Hc in Hc'.
    injection Hc' as <- <-. rewrite Hopt in Hopt'. injection Hopt' as <-.
    right. now left.
  - unfold fetchFailureToast.
    intros [H|[H|[H|[H|[]]]]]; discriminate H.
  - intros (status & data & Hc & Hr & Hopt).
    elim (Hnot status data items Hc); [|assumption].
    now apply ok_range.
Qed.

(** A failed refresh keeps the blocks and is reported once: the failure
    toast is shown exactly when the blocks are not replaced, and
    [fetchBlocks] shows no other toast. *)
Theorem fetchBlocks_reports_failure (chain : fetched) :
  (In fetchFailureToast (fst (fetchBlocks window chain))
   <-> forall items, ~ In (setBlocks items) (fst (fetchBlocks window chain)))
  /\
  (forall title description variant,
      In (toast title description variant) (fst (fetchBlocks window chain)) ->
      toast title description variant = fetchFailureToast).
Proof.
  destruct (fetchBlocks_shape chain)
    as (middle & -> & [(items & ->)|(message & ->)]); cbn [fst app];
    unfold fetchFailureToast.
  - split; [split|].
    + intros [H|[H|[H|[]]]]; discriminate H.
    + intros H. elim (H items). right. now left.
    + intros ? ? ? [H|[H|[H|[]]]]; discriminate H.
  - split; [split|].
    + intros _ items [H|[H|[H|[H|[]]]]]; discriminate H.
    + intros _. right. right. now left.
    + intros ? ? ? [H|[H|[H|[H|[]]]]]; try discriminate H. now symmetry.
Qed.

(** The two shapes of a call of [handleMining]. *)
Lemma handleMining_cases (mine chain : fetched) :
  (exists status data,
      mine = Resolved (mkResponse status (inl data)) /\
      ok (mkResponse status (inl data)) = true /\
      data <> JNull /\
      handleMining window nullProperty mine chain
      = (setMining true
         :: fetch_ (api ++ "/mine") None
         :: toast "Success"
              (orElse (optional data "message")
                 (JString "New block mined successfully!")) None
         :: (fst (fetchBlocks window chain) ++ [setMining false])%list,
         Returned tt)) \/
  ((forall status data,
       mine = Resolved (mkResponse status (inl data)) ->
       ok (mkResponse status (inl data)) = true -> data = JNull) /\
   exists message,
     handleMining window nullProperty mine chain
     = ([setMining true; fetch_ (api ++ "/mine") None;
         console_error "Error in handleMining:" message "handleMining";
         miningFailureToast; setMining false],
        Returned tt)).
Proof.
  destruct (fetchBlocks_shape chain) as (middle & Hfb & _).
  unfold handleMining, fetch, json_, logError, member, miningFailureToast.
  destruct mine as [reason|[status [data|reason]]].
  - right. split; [intros ? ? H; discriminate H|].
    eexists. cbn. reflexivity.
  - destruct (ok (mkResponse status (inl data))) eqn:Hok.
    + destruct data as [|b|n|t|items|fields];
        try (left; eexists; eexists;
             do 3 (split; [reflexivity || assumption || discriminate|]);
             cbn -[optional ok fetchBlocks orElse]; rewrite Hok;
             cbn -[optional ok fetchBlocks orElse]; rewrite Hfb;
             reflexivity).
      right. split; [intros ? ? H _; now injection H as <- <-|].
      eexists. cbn -[ok]. rewrite Hok. reflexivity.
    + right. split;
        [intros ? ? H Hok'; injection H as <- <-; congruence|].
      eexists. cbn -[ok]. rewrite Hok. reflexivity.
  - right. split; [intros ? ? H; discriminate H|].
    destruct (ok (mkResponse status (inr reason))) eqn:Hok;
      eexists; cbn -[ok]; rewrite Hok; reflexivity.
Qed.

(** [handleMining] never rejects and brackets what it does with the
    mining flag: it sets the flag first, clears it last, and does not
    touch it in between, whatever the two requests are answered. *)
Theorem handleMining_brackets_mining (mine chain : fetched) :
  exists middle,
    handleMining window nullProperty mine chain
    = (setMining true :: middle ++ [setMining false], Returned tt) /\
    (forall value, ~ In (setMining value) middle).
Proof.
  destruct (handleMining_cases mine chain)
    as [(status & data & _ & _ & _ & ->)|(_ & message & ->)].
  - destruct (fetchBlocks_shape chain) as (middle & -> & Hmiddle).
    exists (fetch_ (api ++ "/mine") None
            :: toast "Success"
                 (orElse (optional data "message")
                    (JString "New block mined successfully!")) None
            :: fetch_ (api ++ "/chain") None
            :: middle ++ [setLoading false])%list.
    split; [reflexivity|].
    destruct Hmiddle as [(items & ->)|(msg & ->)];
      unfold fetchFailureToast; cbn; intros; intuition discriminate.
  - exists [fetch_ (api ++ "/mine") None;
            console_error "Error in handleMining:" message "handleMining";
            miningFailureToast].
    split; [reflexivity|]. unfold miningFailureToast. cbn.
    intros; intuition discriminate.
Qed.

(** [handleMining] shows its success toast and refreshes the chain
    exactly when the answer to the mine request has a status from 200 to
    299 and a JSON body other than [null]; the toast then carries the
    [message] of the body when that is truthy and the stock text
    otherwise.  In every other case it shows its failure toast and sends
    no second request. *)
Theorem handleMining_refreshes_iff_mined (mine chain : fetched) :
  let actions := fst (handleMining window nullProperty mine chain) in
  (In (fetch_ (api ++ "/chain") None) actions
   <-> exists status data,
         mine = Resolved (mkResponse status (inl data)) /\
         (200 <= status <= 299)%nat /\ data <> JNull) /\
  (forall status data,
      mine = Resolved (mkResponse status (inl data)) ->
      (200 <= status <= 299)%nat -> data <> JNull ->
      In (toast "Success"
            (orElse (optional data "message")
               (JString "New block mined successfully!")) None) actions /\
      ~ In miningFailureToast actions) /\
  (In miningFailureToast actions
   <-> ~ In (fetch_ (api ++ "/chain") None) actions).
Proof.
  assert (Hurl : api ++ "/mine" <> api ++ "/chain")
    by (intros H; apply append_inj in H; discriminate H).
  cbv zeta.
  destruct (handleMining_cases mine chain)
    as [(status & data & Hm & Hok & Hd & ->)|(Hnot & message & ->)];
    cbn [fst].
  - destruct (fetchBlocks_shape chain)
      as (middle & -> & [(items & ->)|(msg & ->)]); cbn [fst app];
      unfold miningFailureToast, fetchFailureToast.
    all: split; [split|split].
    all: try (intros _; exists status, data;
              split; [assumption|]; split; [|assumption];
              now apply (ok_range status (inl data))).
    all: try (intros _; right; right; right; now left).
    all: try (intros status' data' Hm' _ _; rewrite Hm in Hm';
              injection Hm' as <- <-; split;
              [right; right; now left|];
              cbn; intros; intuition discriminate).
    all: split; cbn; intros H; intuition (try discriminate).
    all: elim H; right; right; right; now left.
  - unfold miningFailureToast. split; [split|split].
    + cbn. intros [H|[H|[H|[H|[H|[]]]]]]; try discriminate H.
      injection H as H. now elim Hurl.
    + intros (status & data & Hm & Hr & Hd). elim Hd.
      apply (Hnot status data Hm). now apply ok_range.
    + intros status data Hm Hr Hd. elim Hd.
      apply (Hnot status data Hm). now apply ok_range.
    + split.
      * intros _. cbn. intros [H|[H|[H|[H|[H|[]]]]]]; try discriminate H.
        injection H as H. now elim Hurl.
      * intros _. right. right. right. now left.
Qed.

(** The two shapes of a call of [onSubmitTransaction]. *)
Lemma onSubmitTransaction_cases (recipient : string) (amount : number)
    (post chain : fetched) :
  (exists status data,
      post = Resolved (mkResponse status (inl data)) /\
      ok (mkResponse status (inl data)) = true /\
      data <> JNull /\
      onSubmitTransaction window nullProperty NumberToString
        recipient amount post chain
      = (fetch_ (api ++ "/transaction/new")
           (Some (transactionRequest recipient amount))
         :: toast "Success"
              (orElse (optional data "message")
                 (JString "Transaction created successfully!")) None
         :: reset
         :: fst (fetchBlocks window chain),
         Returned tt)) \/
  ((forall status data,
       post = Resolved (mkResponse status (inl data)) ->
       ok (mkResponse status (inl data)) = true -> data = JNull) /\
   exists logged shown,
     onSubmitTransaction window nullProperty NumberToString
       recipient amount post chain
     = ([fetch_ (api ++ "/transaction/new")
           (Some (transactionRequest recipient amount));
         console_error "Error in onSubmitTransaction:" logged
           "onSubmitTransaction";
         toast "Error" (JString shown) (Some "destructive")],
        Returned tt)).
Proof.
  destruct (fetchBlocks_shape chain) as (middle & Hfb & _).
  unfold onSubmitTransaction, fetch, json_, logError, member.
  destruct post as [reason|[status [data|reason]]].
  - right. split; [intros ? ? H; discriminate H|].
    do 2 eexists. cbn. reflexivity.
  - destruct (ok (mkResponse status (inl data))) eqn:Hok.
    + destruct data as [|b|n|t|items|fields];
        try (left; eexists; eexists;
             do 3 (split; [reflexivity || assumption || discriminate|]);
             cbn -[optional ok fetchBlocks orElse transactionRequest];
             rewrite Hok;
             cbn -[optional ok fetchBlocks orElse transactionRequest];
             rewrite Hfb; reflexivity).
      right. split; [intros ? ? H _; now injection H as <- <-|].
      do 2 eexists. cbn -[ok transactionRequest]. rewrite Hok. reflexivity.
    + right. split;
        [intros ? ? H Hok'; injection H as <- <-; congruence|].
      destruct data as [|b|n|t|items|fields];
        do 2 eexists;
        cbn -[ok transactionRequest ToString orElse optional];
        rewrite Hok; reflexivity.
  - right. split; [intros ? ? H; discriminate H|].
    destruct (ok (mkResponse status (inr reason))) eqn:Hok;
      do 2 eexists;
      cbn -[ok transactionRequest ToString orElse optional];
      rewrite Hok; reflexivity.
Qed.

(** [onSubmitTransaction] never rejects.  It first posts the recipient
    and the amount; it resets the form and refreshes the chain exactly
    when the answer has a status from 200 to 299 and a JSON body other
    than [null], and in every other case does neither. *)
Theorem onSubmitTransaction_resets_iff_accepted (recipient : string)
    (amount : number) (post chain : fetched) :
  exists rest,
    onSubmitTransaction window nullProperty NumberToString
      recipient amount post chain
    = (fetch_ (api ++ "/transaction/new")
         (Some (mkRequestInit "POST" [("Content-Type", "application/json")]
                  (JObject [("recipient", JString recipient);
                            ("amount", JNumber amount)])))
       :: rest,
       Returned tt) /\
    (In reset rest
     <-> exists status data,
           post = Resolved (mkResponse status (inl data)) /\
           (200 <= status <= 299)%nat /\ data <> JNull) /\
    (In reset rest <-> In (fetch_ (api ++ "/chain") None) rest).
Proof.
  destruct (onSubmitTransaction_cases recipient amount post chain)
    as [(status & data & Hp & Hok & Hd & ->)|(Hnot & logged & shown & ->)].
  - eexists. split; [reflexivity|].
    destruct (fetchBlocks_shape chain) as (middle & -> & _). cbn [fst].
    split; split; intros _.
    + exists status, data. split; [assumption|]. split; [|assumption].
      now apply (ok_range status (inl data)).
    + right. now left.
    + right. right. now left.
    + right. now left.
  - eexists. split; [reflexivity|]. split; split.
    + intros [H|[H|[]]]; discriminate H.
    + intros (status & data & Hp & Hr & Hd). elim Hd.
      apply (Hnot status data Hp). now apply ok_range.
    + intros [H|[H|[]]]; discriminate H.
    + intros [H|[H|[]]]; discriminate H.
Qed.


(** ** The polling effect *)

Lemma step_inactive (s : Polling) (e : event) :
  isActive s = false ->
  isActive (step s e) = false /\ calls (step s e) = calls s.
Proof.
  intros H. destruct e as [|id|]; cbn.
  - destruct (awaiting s); cbn; now split.
  - destruct (intervalId s) as [own|]; [|now split].
    rewrite H, andb_false_r. now split.
  - now split.
Qed.

(** Once the effect is cleaned up, no event calls [fetchBlocks] again:
    whatever the state and whatever follows, the number of calls stays
    what it was. *)
Theorem no_fetch_after_unmount (s : Polling) (es : list event) :
  calls (run (step s unmount) es) = calls s /\
  isActive (run (step s unmount) es) = false.
Proof.
  assert (H : forall es t, isActive t = false ->
                           calls (run t es) = calls t /\
                           isActive (run t es) = false).
  { clear. induction es as [|e es IH]; intros t Ht; [now split|].
    change (run t (e :: es)) with (run (step t e) es).
    destruct (step_inactive t e Ht) as [Ha Hc].
    destruct (IH (step t e) Ha) as [H1 H2]. rewrite H1, H2, Hc.
    now split. }
  destruct (H es (step s unmount) eq_refl) as [-> ->]. now split.
Qed.

Lemma run_started (registered : list nat) (next : nat) (es : list event) :
  forall n,
    (forall e, In e es -> e <> unmount) ->
    run (mkPolling true (Some next) (registered ++ [next])%list
           (S next) false n) es
    = mkPolling true (Some next) (registered ++ [next])%list
        (S next) false (n + ticks next es).
Proof.
  induction es as [|e es IH]; intros n H.
  - cbn. now rewrite Nat.add_0_r.
  - assert (He : e <> unmount) by (apply H; now left).
    assert (Hes : forall e', In e' es -> e' <> unmount)
      by (intros e' He'; apply H; now right).
    destruct e as [|id|]; [| |now elim He]; unfold run; cbn [fold_left].
    + cbn [step awaiting]. exact (IH n Hes).
    + cbn [step intervalId intervals isActive]. unfold ticks.
      cbn [filter]. destruct (Nat.eqb_spec id next) as [->|Hid].
      * rewrite existsb_app. cbn [existsb]. rewrite Nat.eqb_refl.
        rewrite orb_true_r. cbn [andb nextInterval awaiting calls].
        fold (run (mkPolling true (Some next) (registered ++ [next])%list
                     (S next) false (S n)) es).
        rewrite (IH (S n) Hes). unfold ticks. cbn [List.length].
        f_equal. lia.
      * cbn [andb]. exact (IH n Hes).
Qed.

(** When the effect is cleaned up after its first [fetchBlocks] has
    completed, the interval it set is cleared: the host is left with the
    intervals it had, and [fetchBlocks] was called once at the start and
    once for every time the interval fired. *)
Theorem interval_cleared_on_unmount (registered : list nat) (next : nat)
    (es : list event) :
  (0 < next)%nat -> ~ In next registered ->
  (forall e, In e es -> e <> unmount) ->
  run (start registered next) (settled :: es ++ [unmount])%list
  = mkPolling false (Some next) registered (S next) false
      (1 + ticks next es).
Proof.
  intros Hpos Hfresh Hes. unfold run. cbn [fold_left step start awaiting
    isActive nextInterval intervals calls].
  rewrite fold_left_app.
  fold (run (mkPolling true (Some next) (registered ++ [next])%list
               (S next) false 1) es).
  rewrite (run_started registered next es 1 Hes).
  cbn [fold_left step intervalId intervals nextInterval awaiting calls].
  destruct (Nat.eqb_spec next 0) as [E|_]; [lia|].
  now rewrite (remove_last next registered Hfresh).
Qed.

Lemma run_leaked (registered : list nat) (next : nat) (es : list event) :
  (forall e, In e es -> e <> unmount) ->
  run (mkPolling false (Some next) (registered ++ [next])%list
         (S next) false 1) es
  = mkPolling false (Some next) (registered ++ [next])%list (S next) false 1.
Proof.
  induction es as [|e es IH]; intros H; [reflexivity|].
  assert (He : e <> unmount) by (apply H; now left).
  assert (Hes : forall e', In e' es -> e' <> unmount)
    by (intros e' He'; apply H; now right).
  destruct e as [|id|]; [| |now elim He]; unfold run; cbn [fold_left].
  - exact (IH Hes).
  - cbn [step intervalId isActive]. rewrite andb_false_r. exact (IH Hes).
Qed.

(** When the effect is cleaned up while its first [fetchBlocks] is
    still awaited, nothing is cleared, and the interval is set all the
    same once the call completes: it stays registered with the host for
    good, though it never calls [fetchBlocks]. *)
Theorem interval_leaks_on_early_unmount (registered : list nat)
    (next : nat) (es : list event) :
  (forall e, In e es -> e <> unmount) ->
  In settled es ->
  run (start registered next) (unmount :: es)
  = mkPolling false (Some next) (registered ++ [next])%list
      (S next) false 1.
Proof.
  unfold run. cbn [fold_left step start intervalId isActive intervals
    nextInterval awaiting calls].
  induction es as [|e es IH]; intros H Hin; [now elim Hin|].
  assert (He : e <> unmount) by (apply H; now left).
  assert (Hes : forall e', In e' es -> e' <> unmount)
    by (intros e' He'; apply H; now right).
  destruct e as [|id|]; [| |now elim He]; cbn [fold_left].
  - cbn [step awaiting isActive intervalId intervals nextInterval calls].
    exact (run_leaked registered next es Hes).
  - cbn [step intervalId]. apply IH; [assumption|].
    destruct Hin as [Hin|Hin]; [discriminate Hin | assumption].
Qed.

End HomeProperties.

(** * The extra properties on concrete inputs *)

Lemma allBelow_nil (bound : nat) : allBelow bound [].
Proof. intros n []. Defined.

Lemma connector_geometry_witness :
  (1 <= 3 < List.length (chain 4))%nat /\
  exists g l m,
    buildBlockGroup Engine.cos Engine.sin (chain 4) = Normal g /\
    connector g 3 = Some l /\
    nth_error (meshes g) 3 = Some m /\
    endPoint l = stored (THREE.meshPosition m) /\
    startPoint l = THREE.origin.
Proof.
  split; [simpl; lia|].
  destruct (connector_geometry Engine.cos Engine.sin (chain 4) 3
              ltac:(simpl; lia))
    as (g & l & m & Hg & Hl & Hm & He & Hs & _).
  exists g, l, m. repeat split; assumption.
Defined.

Lemma build_depends_on_indices_only_witness :
  buildBlockGroup Engine.cos Engine.sin
    [mkBlock 0 "00ab"%string "0"%string ["a pays b"%string];
     mkBlock 1 "00cd"%string "00ab"%string []]
  = buildBlockGroup Engine.cos Engine.sin (chain 2).
Proof.
  exact (build_depends_on_indices_only Engine.cos Engine.sin
           [mkBlock 0 "00ab"%string "0"%string ["a pays b"%string];
     mkBlock 1 "00cd"%string "00ab"%string []]
           (chain 2) eq_refl).
Defined.

Lemma one_pending_frame_witness :
  exists c0 env0 c env' h,
    effect Engine.cos Engine.sin (chain 3) (mounted 800 400)
    = (Normal (Some c0), env0) /\
    frames 3 c0 env0 = (Normal c, env') /\
    frameId c = Some h /\
    animationFrames env' = [h] /\
    THREE.drawCalls (renderer c) = 4%nat.
Proof.
  destruct (one_pending_frame Engine.cos Engine.sin (chain 3)
              (mounted 800 400) (mkDiv 800 400 []) 3 eq_refl
              (allBelow_nil 1))
    as (c0 & env0 & c & env' & g & h & He & Hr & _ & Hf & Hfs & _ & Hd & _).
  exists c0, env0, c, env', h. repeat split; assumption.
Defined.

Lemma mount_unmount_restores_witness :
  exists c0 env0 c env1 env2,
    effect Engine.cos Engine.sin (chain 3) (mounted 800 400)
    = (Normal (Some c0), env0) /\
    frames 3 c0 env0 = (Normal c, env1) /\
    cleanup c env1 = (Normal tt, env2) /\
    mountRef_current env2 = Some (mkDiv 800 400 []) /\
    resizeListeners env2 = [] /\
    animationFrames env2 = [].
Proof.
  exact (mount_unmount_restores Engine.cos Engine.sin (chain 3)
           (mounted 800 400) (mkDiv 800 400 []) 3 eq_refl
           (allBelow_nil 1) (allBelow_nil 0) (allBelow_nil 0)).
Defined.

Lemma rebuild_replaces_scene_witness :
  exists c0 env0 c env1 env2 c' env3,
    effect Engine.cos Engine.sin (chain 3) (mounted 800 400)
    = (Normal (Some c0), env0) /\
    frames 3 c0 env0 = (Normal c, env1) /\
    cleanup c env1 = (Normal tt, env2) /\
    effect Engine.cos Engine.sin (chain 4) env2 = (Normal (Some c'), env3) /\
    mountRef_current env3
    = Some (mkDiv 800 400 [THREE.domElement (renderer c')]) /\
    resizeListeners env3 = [THREE.domElement (renderer c')].
Proof.
  destruct (rebuild_replaces_scene Engine.cos Engine.sin (chain 3) (chain 4)
              (mounted 800 400) (mkDiv 800 400 []) 3 eq_refl
              (allBelow_nil 1) (allBelow_nil 0) (allBelow_nil 0))
    as (c0 & env0 & c & env1 & env2 & c' & env3 & g' & h
        & He & Hr & Hc & He' & _ & _ & _ & Hm & Hl & _).
  exists c0, env0, c, env1, env2, c', env3. repeat split; assumption.
Defined.

Section HomeWitnesses.

Import Home.
Local Open Scope string_scope.

Let host : option string := Some "3000-node.example.dev".
Let nullProperty (key : string) : string :=
  "Cannot read properties of null (reading '" ++ key ++ "')".
Let NumberToString (n : number) : string := "NaN".

Lemma api_base_url_witness :
  API_BASE_URL (Some "example.com") = "https://example.com" /\
  API_BASE_URL (Some "node-3000.app-3000.dev")
  = "https://node-8080.app-3000.dev".
Proof.
  destruct (api_base_url_swaps_first_port "example.com") as (_ & Hkeep & _).
  destruct (api_base_url_swaps_first_port "node-3000.app-3000.dev")
    as (_ & _ & Hswap).
  split.
  - apply Hkeep, no_digit_no_port. cbn. intros ch H.
    repeat (destruct H as [<-|H]; [discriminate|]). elim H.
  - apply (Hswap "node-" ".app-3000.dev" eq_refl).
    cbn. intros ch H.
    repeat (destruct H as [<-|H]; [discriminate|]). elim H.
Defined.

Lemma fetchBlocks_replaces_blocks_witness :
  In (setBlocks [JNull; JNull])
     (fst (fetchBlocks host
             (Resolved
                (mkResponse 200
                   (inl (JObject [("chain", JArray [JNull; JNull]);
                                  ("length", JNumber 2%float)])))))).
Proof.
  apply (fetchBlocks_replaces_blocks_iff_valid host).
  do 2 eexists. split; [reflexivity|]. split; [lia | reflexivity].
Defined.

Lemma fetchBlocks_reports_failure_witness :
  In fetchFailureToast
     (fst (fetchBlocks host
             (Resolved (mkResponse 200 (inl (JObject [("chain", JNull)])))))).
Proof.
  apply (fetchBlocks_reports_failure host).
  intros items [H|[H|[H|[H|[]]]]]; discriminate H.
Defined.

Lemma handleMining_refreshes_witness :
  In (toast "Success" (JString "New Block Forged") None)
     (fst (handleMining host nullProperty
             (Resolved
                (mkResponse 200
                   (inl (JObject [("message", JString "New Block Forged")]))))
             (Rejected (ErrorInstance "Failed to fetch")))).
Proof.
  destruct (handleMining_refreshes_iff_mined host nullProperty
              (Resolved
                 (mkResponse 200
                    (inl (JObject [("message", JString "New Block Forged")]))))
              (Rejected (ErrorInstance "Failed to fetch")))
    as (_ & Hshown & _).
  destruct (Hshown _ _ eq_refl ltac:(lia) ltac:(discriminate)) as [H _].
  exact H.
Defined.

Lemma onSubmitTransaction_resets_witness :
  exists rest,
    onSubmitTransaction host nullProperty NumberToString "bob" 1.5%float
      (Resolved (mkResponse 201 (inl (JObject []))))
      (Rejected (ErrorInstance "Failed to fetch"))
    = (fetch_ (API_BASE_URL host ++ "/transaction/new")
         (Some (transactionRequest "bob" 1.5%float)) :: rest,
       Returned tt) /\
    In reset rest.
Proof.
  destruct (onSubmitTransaction_resets_iff_accepted host nullProperty
              NumberToString "bob" 1.5%float
              (Resolved (mkResponse 201 (inl (JObject []))))
              (Rejected (ErrorInstance "Failed to fetch")))
    as (rest & Hrun & Hreset & _).
  exists rest. split; [exact Hrun|]. apply Hreset.
  do 2 eexists. split; [reflexivity|]. split; [lia | discriminate].
Defined.


Lemma interval_cleared_on_unmount_witness :
  run (start [] 1) [settled; tick 1; tick 1; unmount]
  = mkPolling false (Some 1%nat) [] 2 false 3.
Proof.
  apply (interval_cleared_on_unmount [] 1 [tick 1; tick 1]).
  - lia.
  - intros [].
  - intros e [<-|[<-|[]]]; discriminate.
Defined.

Lemma interval_leaks_on_early_unmount_witness :
  run (start [] 1) [unmount; settled; tick 1]
  = mkPolling false (Some 1%nat) [1%nat] 2 false 1.
Proof.
  apply (interval_leaks_on_early_unmount [] 1 [settled; tick 1]).
  - intros e [<-|[<-|[]]]; discriminate.
  - now left.
Defined.

End HomeWitnesses.
